(** * Spanish identity numbers (NIF, NIE, CIF) and bank account codes (CCC)

    A shallow embedding of [localflavor/es/validators.py] and of the two
    checksum-bearing fields of [localflavor/es/forms.py], with the
    properties of their checksum algorithms.

    Python strings are lists of characters, Python integers are [Z], and a
    Python call is a computation in the [outcome] monad below: it returns,
    raises [ValidationError] with one of the fields' messages, or raises
    one of the interpreter's own exceptions.  Characters are 8-bit; the
    text handled here (digits, Latin letters, space, hyphen) is ASCII, and
    [upper] converts the ASCII letters. *)

From Stdlib Require Import List Ascii String ZArith Lia Bool.
From Stdlib Require Import DecimalString.
Import ListNotations.

Open Scope Z_scope.

(** ** Strings *)

Definition str := list ascii.

(** String literals of the source are written [lit "..."]. *)
Definition lit (s : string) : str := list_ascii_of_string s.
Arguments lit s%_string.

Definition str_eqb (a b : str) : bool :=
  if list_eq_dec ascii_dec a b then true else false.

(** Python's [len], as an integer. *)
Definition len {A} (l : list A) : Z := Z.of_nat (List.length l).

(** ** Outcomes of a call *)

(** The keys of the [error_messages] tables of the validator and of the
    two fields ([invalid_checksum] is the key [checksum] of [ESCCCField]),
    and [value_required], the key [required] of Django's
    [Field.validate]. *)
Inductive message :=
| invalid | invalid_only_nif | invalid_nif | invalid_nie | invalid_cif
| invalid_checksum | value_required.

(** Exceptions of the interpreter that the code never catches. *)
Inductive pyerror := ValueError | IndexError | AttributeError.

Inductive outcome (A : Type) :=
| Return (a : A)
| ValidationError (m : message)
| Raise (e : pyerror).
Arguments Return {A} a.
Arguments ValidationError {A} m.
Arguments Raise {A} e.

Definition bind {A B} (c : outcome A) (k : A -> outcome B) : outcome B :=
  match c with
  | Return a => k a
  | ValidationError m => ValidationError m
  | Raise e => Raise e
  end.

Notation "x <- c ;; k" := (bind c (fun x => k))
  (at level 61, c at next level, right associativity).
Notation "c ;;; k" := (bind c (fun _ => k))
  (at level 61, right associativity).

(** A list comprehension [[f x for x in l]] whose body may raise. *)
Fixpoint mapM {A B} (f : A -> outcome B) (l : list A) : outcome (list B) :=
  match l with
  | [] => Return []
  | x :: r => y <- f x ;; ys <- mapM f r ;; Return (y :: ys)
  end.

(** Python's [sum] over a list of integers. *)
Definition sum (l : list Z) : Z := fold_left Z.add l 0.

(** ** Built-ins on characters and strings *)

(** The characters that [\d] matches and that [int] reads as digits:
    among 8-bit characters, 0 to 9. *)
Definition is_digit (c : ascii) : bool :=
  (48 <=? Z.of_nat (nat_of_ascii c)) && (Z.of_nat (nat_of_ascii c) <=? 57).

Definition digit_value (c : ascii) : Z := Z.of_nat (nat_of_ascii c) - 48.

(** [int(s)] on a string: the decimal value, [ValueError] on the empty
    string and on any character that is not a digit.  (The signs, blanks
    and underscores that [int] also reads do not occur in its arguments
    here: a run matched by [\d+], one of its characters, or a character
    of a numeral written by [str].) *)
Fixpoint int_acc (acc : Z) (s : str) : outcome Z :=
  match s with
  | [] => Return acc
  | c :: r => if is_digit c then int_acc (10 * acc + digit_value c) r
              else Raise ValueError
  end.

Definition int (s : str) : outcome Z :=
  match s with
  | [] => Raise ValueError
  | _ => int_acc 0 s
  end.

(** [str(n)] on an integer: its decimal numeral. *)
Definition str_of_int (n : Z) : str :=
  list_ascii_of_string (NilZero.string_of_int (Z.to_int n)).

(** [s[i]]: negative indices count from the end, anything else out of
    range raises [IndexError]. *)
Definition getitem (s : str) (i : Z) : outcome ascii :=
  let j := if i <? 0 then len s + i else i in
  if (0 <=? j) && (j <? len s)
  then match nth_error s (Z.to_nat j) with
       | Some c => Return c
       | None => Raise IndexError
       end
  else Raise IndexError.

(** [s[:-1]]: all but the last character (empty on the empty string). *)
Definition slice_but_last (s : str) : str := removelast s.

Fixpoint startswith (s p : str) : bool :=
  match p, s with
  | [], _ => true
  | _ :: _, [] => false
  | a :: p', b :: s' => Ascii.eqb a b && startswith s' p'
  end.

(** [sub in s] on strings: [sub] occurs in [s] as a substring; the empty
    string occurs in every string. *)
Fixpoint contains (s sub : str) : bool :=
  startswith s sub ||
  match s with
  | [] => false
  | _ :: r => contains r sub
  end.

(** [s.replace(old, new)]: the occurrences of [old] are found from the
    left and do not overlap.  [skip] counts the characters of an
    occurrence still to be passed over. *)
Fixpoint replace_from (old new s : str) (skip : nat) : str :=
  match s with
  | [] => []
  | c :: r =>
      match skip with
      | S k => replace_from old new r k
      | O => if startswith s old
             then new ++ replace_from old new r (List.length old - 1)%nat
             else c :: replace_from old new r 0
      end
  end.

Definition replace (s old new : str) : str :=
  match old with
  | [] => new ++ flat_map (fun c => c :: new) s
  | _ => replace_from old new s 0
  end.

(** [s.upper()] on ASCII text. *)
Definition upper_char (c : ascii) : ascii :=
  let n := nat_of_ascii c in
  if (97 <=? Z.of_nat n) && (Z.of_nat n <=? 122)
  then ascii_of_nat (n - 32)%nat else c.

Definition upper (s : str) : str := map upper_char s.

(** [enumerate(l)] *)
Fixpoint enumerate_from {A} (i : Z) (l : list A) : list (Z * A) :=
  match l with
  | [] => []
  | x :: r => (i, x) :: enumerate_from (i + 1) r
  end.

Definition enumerate {A} (l : list A) : list (Z * A) := enumerate_from 0 l.

(** [zip(a, b)] is [List.combine]: it stops with the shorter list. *)
Definition zip {A B} (a : list A) (b : list B) : list (A * B) := combine a b.

(** ** Regular expressions of the source

    Each pattern is matched by a function written for it.  In both
    patterns a letter class, a separator class and [\d] are pairwise
    disjoint, so the greedy choice at every [?] and [+] is the only one
    that can lead to a match and no backtracking is needed; the lemmas
    [re_match_identity_sound] and [re_match_identity_complete] below state
    the match without reference to the order of the search. *)

(** [c] belongs to the class [[cls]]; the classes of the source hold
    letters, space and hyphen only, each standing for itself. *)
Definition in_class (c : ascii) (cls : str) : bool :=
  existsb (Ascii.eqb c) cls.

(** [([cls]?)]: one character of the class when there is one. *)
Definition opt_class (cls : str) (s : str) : str * str :=
  match s with
  | c :: r => if in_class c cls then ([c], r) else ([], s)
  | [] => ([], [])
  end.

(** [(\d+)] and [\d*]: the longest run of digits. *)
Fixpoint span_digits (s : str) : str * str :=
  match s with
  | c :: r => if is_digit c
              then let (d, rest) := span_digits r in (c :: d, rest)
              else ([], s)
  | [] => ([], [])
  end.

(** [\d{n}]: exactly [n] digits. *)
Fixpoint take_digits (n : nat) (s : str) : option (str * str) :=
  match n with
  | O => Some ([], s)
  | S k => match s with
           | c :: r => if is_digit c
                       then match take_digits k r with
                            | Some (d, rest) => Some (c :: d, rest)
                            | None => None
                            end
                       else None
           | [] => None
           end
  end.

Definition newline : ascii := ascii_of_nat 10.

(** [$] without [re.MULTILINE]: the end of the string, or the position
    just before a newline that is the last character. *)
Definition at_dollar (s : str) : bool :=
  match s with
  | [] => true
  | [c] => Ascii.eqb c newline
  | _ => false
  end.

(** ** validators.py *)

(** [cif_get_checksum(number)] *)
Definition cif_get_checksum (number : str) : outcome Z :=
  l1 <- mapM (fun '(pos, digit) => int [digit])
          (filter (fun '(pos, _) => negb (pos mod 2 =? 0))
             (enumerate number)) ;;
  let s1 := sum l1 in
  l2 <- mapM (fun '(pos, digit) =>
                d <- int [digit] ;;
                units <- mapM (fun unit => int [unit]) (str_of_int (d * 2)) ;;
                Return (sum units))
          (filter (fun '(pos, _) => pos mod 2 =? 0) (enumerate number)) ;;
  let s2 := sum l2 in
  Return ((10 - ((s1 + s2) mod 10)) mod 10).

(** The validator object: [__init__] stores [only_nif] and the four
    tables. *)
Record ESIdentityCardNumberValidator := {
  only_nif : bool;
  nif_control : str;
  cif_control : str;
  cif_types : str;
  nie_types : str
}.

Definition ESIdentityCardNumberValidator_init (only_nif : bool)
  : ESIdentityCardNumberValidator :=
  {| only_nif := only_nif;
     nif_control := lit "TRWAGMYFPDXBNJZSQVHLCKE";
     cif_control := lit "JABCDEFGHI";
     cif_types := lit "ABCDEFGHJKLMNPQS";
     nie_types := lit "XYZ" |}.

(** The pattern [^([P]?)(\d+)([S]?)$] of [__call__], with its three
    groups. *)
Definition re_match_identity (P S value : str) : option (str * str * str) :=
  let (letter1, r1) := opt_class P value in
  let (number, r2) := span_digits r1 in
  match number with
  | [] => None
  | _ => let (letter2, r3) := opt_class S r2 in
         if at_dollar r3 then Some (letter1, number, letter2) else None
  end.

(** Truth value of a string. *)
Definition truthy (s : str) : bool :=
  match s with [] => false | _ => true end.

(** In the CIF branch [letter2] is rebound to an integer: the values it
    takes, and [==] on them (a string never equals an integer). *)
Inductive pyval := PStr (s : str) | PInt (n : Z).

Definition py_eqb (a b : pyval) : bool :=
  match a, b with
  | PStr x, PStr y => str_eqb x y
  | PInt x, PInt y => x =? y
  | _, _ => false
  end.

Section Validator.
Variable self : ESIdentityCardNumberValidator.

(** [nif_get_checksum = lambda d: self.nif_control[int(d) % 23]] *)
Definition nif_get_checksum (d : str) : outcome ascii :=
  n <- int d ;; getitem (nif_control self) (n mod 23).

(** [ESIdentityCardNumberValidator.__call__]; returning [tt] is
    returning [None], the value is accepted. *)
Definition ESIdentityCardNumberValidator_call (value : str) : outcome unit :=
  match re_match_identity (cif_types self ++ nie_types self)
          (nif_control self ++ cif_control self) value with
  | None => ValidationError invalid
  | Some (letter1, number, letter2) =>
      if negb (truthy letter1) && truthy letter2 then
        c <- nif_get_checksum number ;;
        if str_eqb letter2 [c] then Return tt
        else ValidationError invalid_nif
      else if contains (nie_types self) letter1 && truthy letter2 then
        let l2n := replace (replace (replace letter1 (lit "X") (lit "0"))
                              (lit "Y") (lit "1")) (lit "Z") (lit "2") in
        let number2b_checked := l2n ++ number in
        c <- nif_get_checksum number2b_checked ;;
        if str_eqb letter2 [c] then Return tt
        else ValidationError invalid_nie
      else if negb (only_nif self) && contains (cif_types self) letter1
              && ((len number =? 7) || (len number =? 8)) then
        nl <- (if negb (truthy letter2)
               then last_char <- getitem number (-1) ;;
                    n <- int [last_char] ;;
                    Return (slice_but_last number, PInt n)
               else Return (number, PStr letter2)) ;;
        let '(number, letter2) := nl in
        checksum <- cif_get_checksum number ;;
        c <- getitem (cif_control self) checksum ;;
        if py_eqb letter2 (PInt checksum) || py_eqb letter2 (PStr [c])
        then Return tt
        else ValidationError invalid_cif
      else ValidationError invalid
  end.
End Validator.

(** ** forms.py *)

(** Django's [Field.clean] as the two fields inherit it, with no length
    bounds: an empty value is an error on a required field and is
    otherwise returned without validation; any other value is handed, as
    it is, to the validator and returned. *)
Definition Field_clean (required : bool) (validator : str -> outcome unit)
    (value : str) : outcome str :=
  if truthy value
  then validator value ;;; Return value
  else if required then ValidationError value_required else Return value.

(** [ESIdentityCardNumberField]: [__init__] stores [only_nif] and the
    tables on the field and installs a validator built with no
    arguments. *)
Record ESIdentityCardNumberField := {
  field_only_nif : bool;
  field_required : bool;
  field_validators : ESIdentityCardNumberValidator
}.

Definition ESIdentityCardNumberField_init (only_nif required : bool)
  : ESIdentityCardNumberField :=
  {| field_only_nif := only_nif;
     field_required := required;
     field_validators := ESIdentityCardNumberValidator_init false |}.

(** [value.upper().replace(' ', '').replace('-', '')] *)
Definition normalize (value : str) : str :=
  replace (replace (upper value) (lit " ") (lit "")) (lit "-") (lit "").

(** [ESIdentityCardNumberField.clean] *)
Definition ESIdentityCardNumberField_clean (self : ESIdentityCardNumberField)
    (value : str) : outcome str :=
  let value := if truthy value then normalize value else value in
  Field_clean (field_required self)
    (ESIdentityCardNumberValidator_call (field_validators self)) value.

(** The pattern [^(\d{4})[ -]?(\d{4})[ -]?(\d{2})[ -]?(\d{10})$] of
    [ESCCCField], with its four groups. *)
Definition re_match_ccc (value : str) : option (str * str * str * str) :=
  match take_digits 4 value with
  | None => None
  | Some (entity, r1) =>
      match take_digits 4 (snd (opt_class (lit " -") r1)) with
      | None => None
      | Some (office, r2) =>
          match take_digits 2 (snd (opt_class (lit " -") r2)) with
          | None => None
          | Some (checksum, r3) =>
              match take_digits 10 (snd (opt_class (lit " -") r3)) with
              | None => None
              | Some (account, r4) =>
                  if at_dollar r4
                  then Some (entity, office, checksum, account)
                  else None
              end
          end
      end
  end.

(** The validator a [RegexField] installs for its pattern. *)
Definition ccc_regex_validator (value : str) : outcome unit :=
  match re_match_ccc value with
  | Some _ => Return tt
  | None => ValidationError invalid
  end.

Definition control_str : list Z := [1; 2; 4; 8; 5; 10; 9; 7; 3; 6].

(** [get_checksum], the lambda of [ESCCCField.clean] *)
Definition get_checksum (d : str) : outcome str :=
  products <- mapM (fun '(digit, control) =>
                      n <- int [digit] ;; Return (n * control))
                (zip d control_str) ;;
  Return (replace (replace (str_of_int (11 - sum products mod 11))
                     (lit "10") (lit "1")) (lit "11") (lit "0")).

(** [ESCCCField.clean] *)
Definition ESCCCField_clean (required : bool) (value : str) : outcome str :=
  Field_clean required ccc_regex_validator value ;;;
  if negb (truthy value) then Return (lit "")
  else
    match re_match_ccc value with
    | None => Raise AttributeError
    | Some (entity, office, checksum, account) =>
        c1 <- get_checksum (lit "00" ++ entity ++ office) ;;
        c2 <- get_checksum account ;;
        if str_eqb (c1 ++ c2) checksum then Return value
        else ValidationError invalid_checksum
    end.

(** A character class given as a range [[lo-hi]]. *)
Definition in_range (lo hi c : ascii) : bool :=
  (Z.of_nat (nat_of_ascii lo) <=? Z.of_nat (nat_of_ascii c))
  && (Z.of_nat (nat_of_ascii c) <=? Z.of_nat (nat_of_ascii hi)).

(** The pattern [^(0[1-9]|[1-4][0-9]|5[0-2])\d{3}$] of
    [ESPostalCodeField], with its group.  The three alternatives start
    with different characters, so at most one of them applies. *)
Definition re_match_postal_code (value : str) : option str :=
  match value with
  | a :: b :: r =>
      if (Ascii.eqb a "0" && in_range "1" "9" b)
         || (in_range "1" "4" a && in_range "0" "9" b)
         || (Ascii.eqb a "5" && in_range "0" "2" b)
      then match take_digits 3 r with
           | Some (_, rest) => if at_dollar rest then Some [a; b] else None
           | None => None
           end
      else None
  | _ => None
  end.

(** [ESPostalCodeField]: a [RegexField] on that pattern, with the
    inherited [clean]. *)
Definition ESPostalCodeField_clean (required : bool) (value : str)
  : outcome str :=
  Field_clean required
    (fun v => match re_match_postal_code v with
              | Some _ => Return tt
              | None => ValidationError invalid
              end) value.

(** The pattern [^(6|7|8|9)\d{8}$] of [ESPhoneNumberField], with its
    group. *)
Definition re_match_phone_number (value : str) : option str :=
  match value with
  | a :: r =>
      if Ascii.eqb a "6" || Ascii.eqb a "7" || Ascii.eqb a "8"
         || Ascii.eqb a "9"
      then match take_digits 8 r with
           | Some (_, rest) => if at_dollar rest then Some [a] else None
           | None => None
           end
      else None
  | [] => None
  end.

(** [ESPhoneNumberField]: a [RegexField] on that pattern, with the
    inherited [clean]. *)
Definition ESPhoneNumberField_clean (required : bool) (value : str)
  : outcome str :=
  Field_clean required
    (fun v => match re_match_phone_number v with
              | Some _ => Return tt
              | None => ValidationError invalid
              end) value.

(** ** The functions of the specification

    Definitions that follow the wording of the specification, to be
    compared with the embedded code. *)

(** The value of a string of decimal digits. *)
Definition decimal (s : str) : Z :=
  fold_left (fun acc c => 10 * acc + digit_value c) s 0.

(** [digit_sum n]: the sum of the decimal digits of [n]. *)
Fixpoint digit_sum_fuel (fuel : nat) (n : Z) : Z :=
  match fuel with
  | O => 0
  | S k => if n <? 10 then n else n mod 10 + digit_sum_fuel k (n / 10)
  end.

Definition digit_sum (n : Z) : Z := digit_sum_fuel (Z.to_nat n) n.

(** [odd_sum]: the digits at the odd positions, as they are;
    [even_sum]: the digit sums of twice the digits at the even positions.
    [even] tells whether the head of the list stands at an even
    position. *)
Fixpoint odd_sum_from (even : bool) (s : str) : Z :=
  match s with
  | [] => 0
  | c :: r => (if even then 0 else digit_value c) + odd_sum_from (negb even) r
  end.

Fixpoint even_sum_from (even : bool) (s : str) : Z :=
  match s with
  | [] => 0
  | c :: r => (if even then digit_sum (digit_value c * 2) else 0)
              + even_sum_from (negb even) r
  end.

Definition odd_sum (s : str) : Z := odd_sum_from true s.
Definition even_sum (s : str) : Z := even_sum_from true s.

Definition cif_checksum_digit (number : str) : Z :=
  (10 - (odd_sum number + even_sum number) mod 10) mod 10.

(** A CIF check character agrees with a checksum: as a digit it is the
    checksum, or as a letter it is the checksum's entry of the CIF control
    alphabet. *)
Definition cif_check_character_ok (ch : ascii) (checksum : Z) : Prop :=
  (is_digit ch = true /\ digit_value ch = checksum) \/
  nth_error (lit "JABCDEFGHI") (Z.to_nat checksum) = Some ch.

(** The declared results of a validation: the value is accepted, or a
    [ValidationError] carries one of the messages. *)
Definition declared {A} (r : outcome A) : Prop :=
  (exists a, r = Return a) \/ (exists m, r = ValidationError m).

(** The weighted digit sum of a CCC segment and its check digit. *)
Fixpoint weighted_sum (s : str) (weights : list Z) : Z :=
  match s, weights with
  | c :: r, w :: ws => digit_value c * w + weighted_sum r ws
  | _, _ => 0
  end.

Definition ccc_checksum (segment : str) : Z :=
  let r := 11 - weighted_sum segment control_str mod 11 in
  if r =? 10 then 1 else if r =? 11 then 0 else r.

(** A separator: the space and the hyphen. *)
Definition is_separator (c : ascii) : bool :=
  Ascii.eqb c " " || Ascii.eqb c "-".

(** The canonical digits-only form of a bank account: the value with
    its space and hyphen separators removed. *)
Definition canonical_ccc (value : str) : str :=
  filter (fun c => negb (is_separator c)) value.

(** The leading digit that stands for an NIE prefix letter. *)
Definition nie_prefix_digit (p : ascii) : ascii :=
  if Ascii.eqb p "X" then "0"%char
  else if Ascii.eqb p "Y" then "1"%char
  else "2"%char.

(** A string of decimal digits. *)
Definition all_digits (s : str) : bool := forallb is_digit s.

(** [l] is what an optional class [[cls]?] can capture. *)
Definition opt_of_class (cls l : str) : Prop :=
  l = [] \/ exists c, l = [c] /\ in_class c cls = true.

(** [cls] holds neither a digit nor the newline. *)
Definition letter_class (cls : str) : Prop :=
  forall c, in_class c cls = true -> is_digit c = false /\ c <> newline.

(** A character that normalization keeps. *)
Definition kept (c : ascii) : bool := negb (is_separator c).

(** A character that normalization keeps as it is. *)
Definition plain (c : ascii) : bool :=
  Ascii.eqb (upper_char c) c && kept c.

(** The end a pattern's [$] allows after what it matched. *)
Definition dollar_tail (tail : str) : Prop := tail = [] \/ tail = [newline].

(** What [[ -]?] can capture. *)
Definition opt_separator (s : str) : Prop :=
  s = [] \/ s = [" "%char] \/ s = ["-"%char].

(** The value is made of the four digit groups of a bank account, with
    at most one separator between two groups. *)
Definition ccc_shape (value entity office check account : str) : Prop :=
  List.length entity = 4%nat /\ List.length office = 4%nat
  /\ List.length check = 2%nat /\ List.length account = 10%nat
  /\ all_digits (entity ++ office ++ check ++ account) = true
  /\ exists s1 s2 s3 tail,
       opt_separator s1 /\ opt_separator s2 /\ opt_separator s3
       /\ dollar_tail tail
       /\ value = entity ++ s1 ++ office ++ s2 ++ check ++ s3
                  ++ account ++ tail.

(** The character of a decimal digit. *)
Definition digit_char (n : Z) : ascii := ascii_of_nat (Z.to_nat (48 + n)).

(** What one digit adds to the CIF sum, at an even or at an odd
    position. *)
Definition cif_digit_term (even : bool) (c : ascii) : Z :=
  if even then digit_sum (digit_value c * 2) else digit_value c.

(** ** Characters *)

Lemma in_class_In (c : ascii) (cls : str) :
  in_class c cls = true <-> In c cls.
Proof.
  unfold in_class. rewrite existsb_exists. split.
  - intros (x & Hx & Heq). apply Ascii.eqb_eq in Heq. now subst.
  - intros H. exists c. split; [assumption | apply Ascii.eqb_refl].
Qed.

Lemma is_digit_In (c : ascii) :
  is_digit c = true -> In c (lit "0123456789").
Proof.
  destruct c as [[] [] [] [] [] [] [] []]; intros H;
    try discriminate H; simpl; auto 12.
Qed.

Lemma digit_value_range (c : ascii) :
  is_digit c = true -> 0 <= digit_value c <= 9.
Proof.
  unfold is_digit, digit_value. intros H.
  apply andb_true_iff in H. destruct H as [H1 H2].
  apply Z.leb_le in H1. apply Z.leb_le in H2. lia.
Qed.

Lemma all_digits_cons (c : ascii) (s : str) :
  all_digits (c :: s) = true <-> is_digit c = true /\ all_digits s = true.
Proof. unfold all_digits. simpl. apply andb_true_iff. Qed.

Lemma all_digits_app (a b : str) :
  all_digits (a ++ b) = true <-> all_digits a = true /\ all_digits b = true.
Proof. unfold all_digits. rewrite forallb_app. apply andb_true_iff. Qed.

(** A letter of one of the source's classes is not a digit. *)
Lemma letter_not_digit (c : ascii) :
  In c (lit "ABCDEFGHIJKLMNOPQRSTUVWXYZ") -> is_digit c = false.
Proof.
  simpl. intros H.
  repeat (destruct H as [<- | H]; [reflexivity |]). contradiction.
Qed.

(** ** Integers read from and written to strings *)

Lemma decimal_acc (acc : Z) (s : str) :
  fold_left (fun a c => 10 * a + digit_value c) s acc
  = acc * 10 ^ len s + decimal s.
Proof.
  unfold decimal, len. revert acc.
  induction s as [| c r IH]; intros acc.
  - simpl. lia.
  - cbn [fold_left List.length]. rewrite IH, (IH (10 * 0 + digit_value c)).
    rewrite Nat2Z.inj_succ, Z.pow_succ_r by lia. lia.
Qed.

Lemma fold_decimal_nonneg (s : str) (acc : Z) :
  0 <= acc -> all_digits s = true ->
  0 <= fold_left (fun a c => 10 * a + digit_value c) s acc.
Proof.
  revert acc. induction s as [| c r IH]; intros acc Hacc H; cbn [fold_left].
  - exact Hacc.
  - apply all_digits_cons in H. destruct H as [Hc Hr].
    apply IH; [| exact Hr]. pose proof (digit_value_range c Hc). lia.
Qed.

Lemma decimal_nonneg (s : str) : all_digits s = true -> 0 <= decimal s.
Proof. apply fold_decimal_nonneg. lia. Qed.

Lemma int_acc_digits (acc : Z) (s : str) :
  all_digits s = true ->
  int_acc acc s = Return (fold_left (fun a c => 10 * a + digit_value c) s acc).
Proof.
  revert acc. induction s as [| c r IH]; intros acc H;
    cbn [fold_left int_acc].
  - reflexivity.
  - apply all_digits_cons in H. destruct H as [Hc Hr].
    rewrite Hc. now apply IH.
Qed.

Lemma int_digits (s : str) :
  s <> [] -> all_digits s = true -> int s = Return (decimal s).
Proof.
  intros Hne H. destruct s as [| c r]; [contradiction |].
  unfold int. now rewrite int_acc_digits.
Qed.

Lemma int_digit (c : ascii) :
  is_digit c = true -> int [c] = Return (digit_value c).
Proof.
  intros H. rewrite int_digits; [reflexivity | discriminate |].
  apply all_digits_cons. now split.
Qed.

Lemma len_nonneg {A} (l : list A) : 0 <= len l.
Proof. unfold len. lia. Qed.

Lemma getitem_in_range (s : str) (i : Z) :
  0 <= i < len s ->
  exists c, nth_error s (Z.to_nat i) = Some c /\ getitem s i = Return c.
Proof.
  intros Hi. unfold getitem.
  replace (i <? 0) with false by (symmetry; apply Z.ltb_ge; lia).
  replace ((0 <=? i) && (i <? len s)) with true
    by (symmetry; apply andb_true_iff; split;
        [apply Z.leb_le | apply Z.ltb_lt]; lia).
  destruct (nth_error s (Z.to_nat i)) as [c |] eqn:E.
  - now exists c.
  - apply nth_error_None in E. unfold len in Hi. lia.
Qed.

Lemma getitem_last (s : str) (c : ascii) :
  getitem (s ++ [c]) (-1) = Return c.
Proof.
  unfold getitem. change (-1 <? 0) with true. cbv iota.
  assert (Hl : len (s ++ [c]) + -1 = len s).
  { unfold len. rewrite length_app. simpl. lia. }
  rewrite Hl.
  replace ((0 <=? len s) && (len s <? len (s ++ [c]))) with true.
  - unfold len. rewrite Nat2Z.id, nth_error_app2, Nat.sub_diag by lia.
    reflexivity.
  - symmetry. apply andb_true_iff. split;
      [apply Z.leb_le | apply Z.ltb_lt]; unfold len in *; lia.
Qed.

Lemma str_eqb_eq (a b : str) : str_eqb a b = true <-> a = b.
Proof.
  unfold str_eqb. destruct (list_eq_dec ascii_dec a b); split;
    congruence.
Qed.

Lemma str_eqb_refl (a : str) : str_eqb a a = true.
Proof. now apply str_eqb_eq. Qed.

Lemma str_eqb_single (a b : ascii) : str_eqb [a] [b] = Ascii.eqb a b.
Proof.
  destruct (Ascii.eqb a b) eqn:E.
  - apply Ascii.eqb_eq in E. subst. apply str_eqb_refl.
  - apply Ascii.eqb_neq in E. unfold str_eqb.
    destruct (list_eq_dec ascii_dec [a] [b]); congruence.
Qed.

(** ** The identity pattern *)

Lemma span_digits_app (d rest : str) :
  all_digits d = true ->
  match rest with [] => True | c :: _ => is_digit c = false end ->
  span_digits (d ++ rest) = (d, rest).
Proof.
  intros Hd Hrest. induction d as [| c r IH]; simpl.
  - destruct rest as [| x xs]; simpl; [reflexivity | now rewrite Hrest].
  - apply all_digits_cons in Hd. destruct Hd as [Hc Hr].
    rewrite Hc, (IH Hr). reflexivity.
Qed.

Lemma span_digits_spec (s d rest : str) :
  span_digits s = (d, rest) -> all_digits d = true /\ s = d ++ rest.
Proof.
  revert d rest. induction s as [| c r IH]; intros d rest; simpl.
  - intros [= <- <-]. now split.
  - destruct (is_digit c) eqn:Hc.
    + destruct (span_digits r) as [d' rest'] eqn:E.
      intros [= <- <-]. destruct (IH d' rest' eq_refl) as [Hd ->].
      split; [| reflexivity]. apply all_digits_cons. now split.
    + intros [= <- <-]. now split.
Qed.

Lemma opt_class_spec (cls s l rest : str) :
  opt_class cls s = (l, rest) -> opt_of_class cls l /\ s = l ++ rest.
Proof.
  unfold opt_class, opt_of_class. destruct s as [| c r].
  - intros [= <- <-]. split; [now left | reflexivity].
  - destruct (in_class c cls) eqn:Hc; intros [= <- <-].
    + split; [right; now exists c | reflexivity].
    + split; [now left | reflexivity].
Qed.

Lemma at_dollar_spec (s : str) :
  at_dollar s = true <-> s = [] \/ s = [newline].
Proof.
  destruct s as [| c [| c' r]]; simpl.
  - split; [now left | reflexivity].
  - rewrite Ascii.eqb_eq. split.
    + intros ->. now right.
    + intros [H | H]; congruence.
  - split; [discriminate | intros [H | H]; discriminate].
Qed.

(** What a match of the identity pattern captures: the groups and an end
    that is empty or a single newline make up the value. *)
Lemma re_match_identity_sound (P S value letter1 number letter2 : str) :
  re_match_identity P S value = Some (letter1, number, letter2) ->
  opt_of_class P letter1 /\ number <> [] /\ all_digits number = true /\
  opt_of_class S letter2 /\
  exists tail, (tail = [] \/ tail = [newline]) /\
               value = letter1 ++ number ++ letter2 ++ tail.
Proof.
  unfold re_match_identity.
  destruct (opt_class P value) as [l1 r1] eqn:E1.
  destruct (span_digits r1) as [num r2] eqn:E2.
  destruct num as [| d ds]; [discriminate |].
  destruct (opt_class S r2) as [l2 r3] eqn:E3.
  destruct (at_dollar r3) eqn:E4; [| discriminate].
  intros [= <- <- <-].
  apply opt_class_spec in E1, E3. apply span_digits_spec in E2.
  apply at_dollar_spec in E4.
  destruct E1 as [H1 ->], E2 as [H2 ->], E3 as [H3 ->].
  repeat split; try assumption; try discriminate.
  now exists r3.
Qed.

(** Every decomposition of the value into the three groups and such an
    end is the match: the decomposition is unique, whatever the order in
    which a matcher tries the alternatives. *)
Lemma re_match_identity_complete (P S letter1 number letter2 tail : str) :
  letter_class P -> letter_class S ->
  opt_of_class P letter1 -> number <> [] -> all_digits number = true ->
  opt_of_class S letter2 -> tail = [] \/ tail = [newline] ->
  re_match_identity P S (letter1 ++ number ++ letter2 ++ tail)
  = Some (letter1, number, letter2).
Proof.
  intros HP HS H1 Hne Hd H2 Ht. unfold re_match_identity.
  assert (E1 : opt_class P (letter1 ++ number ++ letter2 ++ tail)
               = (letter1, number ++ letter2 ++ tail)).
  { destruct H1 as [-> | (c & -> & Hc)].
    - destruct number as [| d ds]; [contradiction |].
      apply all_digits_cons in Hd. destruct Hd as [Hd _].
      simpl. destruct (in_class d P) eqn:E; [| reflexivity].
      apply HP in E. destruct E as [E _]. congruence.
    - simpl. now rewrite Hc. }
  rewrite E1.
  assert (E2 : span_digits (number ++ letter2 ++ tail)
               = (number, letter2 ++ tail)).
  { apply span_digits_app; [assumption |].
    destruct H2 as [-> | (c & -> & Hc)].
    - destruct Ht as [-> | ->]; simpl; [exact I | reflexivity].
    - simpl. now apply HS. }
  rewrite E2. destruct number as [| d ds]; [contradiction |].
  assert (E3 : opt_class S (letter2 ++ tail) = (letter2, tail)).
  { destruct H2 as [-> | (c & -> & Hc)].
    - destruct Ht as [-> | ->]; simpl; [reflexivity |].
      destruct (in_class newline S) eqn:E; [| reflexivity].
      apply HS in E. destruct E as [_ E]. congruence.
    - simpl. now rewrite Hc. }
  rewrite E3.
  replace (at_dollar tail) with true
    by (symmetry; now apply at_dollar_spec).
  reflexivity.
Qed.

Lemma letter_class_check (cls : str) :
  forallb (fun c => negb (is_digit c) && negb (Ascii.eqb c newline)) cls
  = true ->
  letter_class cls.
Proof.
  intros H c Hc. apply in_class_In in Hc.
  rewrite forallb_forall in H. specialize (H c Hc).
  apply andb_true_iff in H. destruct H as [H1 H2].
  apply negb_true_iff in H1, H2. apply Ascii.eqb_neq in H2. now split.
Qed.

Section ValidatorFacts.
Variable o : bool.
Let V := ESIdentityCardNumberValidator_init o.

Lemma prefix_class_letters : letter_class (cif_types V ++ nie_types V).
Proof. apply letter_class_check. reflexivity. Qed.

Lemma suffix_class_letters : letter_class (nif_control V ++ cif_control V).
Proof. apply letter_class_check. reflexivity. Qed.

(** The match of a value made of the three groups. *)
Lemma match_groups (letter1 number letter2 : str) :
  opt_of_class (cif_types V ++ nie_types V) letter1 ->
  number <> [] -> all_digits number = true ->
  opt_of_class (nif_control V ++ cif_control V) letter2 ->
  re_match_identity (cif_types V ++ nie_types V)
    (nif_control V ++ cif_control V) (letter1 ++ number ++ letter2)
  = Some (letter1, number, letter2).
Proof.
  intros H1 Hne Hd H2.
  rewrite <- (app_nil_r letter2) at 1.
  apply re_match_identity_complete; auto using prefix_class_letters,
    suffix_class_letters.
Qed.

(** The NIF control letter of a digit string is defined. *)
Lemma nif_get_checksum_digits (d : str) :
  d <> [] -> all_digits d = true ->
  exists c, nth_error (nif_control V) (Z.to_nat (decimal d mod 23)) = Some c
            /\ nif_get_checksum V d = Return c.
Proof.
  intros Hne Hd. unfold nif_get_checksum.
  rewrite (int_digits d Hne Hd). cbn [bind].
  apply getitem_in_range.
  change (len (nif_control V)) with 23.
  apply Z.mod_pos_bound. lia.
Qed.

(** A value with no prefix letter and a suffix letter takes the NIF
    branch. *)
Lemma call_nif (D : str) (L : ascii) :
  D <> [] -> all_digits D = true ->
  in_class L (nif_control V ++ cif_control V) = true ->
  ESIdentityCardNumberValidator_call V (D ++ [L])
  = (c <- nif_get_checksum V D ;;
     if Ascii.eqb L c then Return tt else ValidationError invalid_nif).
Proof.
  intros Hne Hd HL. unfold ESIdentityCardNumberValidator_call.
  change (D ++ [L]) with ([] ++ D ++ [L]).
  rewrite match_groups; [| now left | assumption | assumption
                         | right; now exists L].
  cbn [truthy negb andb].
  destruct (nif_get_checksum V D) as [c | m | e]; cbn [bind];
    [| reflexivity | reflexivity].
  now rewrite str_eqb_single.
Qed.

(** A value with an NIE prefix letter and a suffix letter takes the NIE
    branch. *)
Lemma call_nie (p : ascii) (D : str) (L : ascii) :
  In p (nie_types V) ->
  D <> [] -> all_digits D = true ->
  in_class L (nif_control V ++ cif_control V) = true ->
  ESIdentityCardNumberValidator_call V (p :: D ++ [L])
  = (c <- nif_get_checksum V (nie_prefix_digit p :: D) ;;
     if Ascii.eqb L c then Return tt else ValidationError invalid_nie).
Proof.
  intros Hp Hne Hd HL. unfold ESIdentityCardNumberValidator_call.
  change (p :: D ++ [L]) with ([p] ++ D ++ [L]).
  rewrite match_groups; [| | assumption | assumption | right; now exists L].
  - assert (E : contains (nie_types V) [p] = true
                /\ replace (replace (replace [p] (lit "X") (lit "0"))
                              (lit "Y") (lit "1")) (lit "Z") (lit "2")
                   = [nie_prefix_digit p]).
    { simpl in Hp. destruct Hp as [<- | [<- | [<- | []]]];
        split; reflexivity. }
    destruct E as [E1 E2]. rewrite E1, E2.
    cbn [truthy negb andb app].
    destruct (nif_get_checksum V (nie_prefix_digit p :: D)) as [c | m | e];
      cbn [bind]; [| reflexivity | reflexivity].
    now rewrite str_eqb_single.
  - right. exists p. split; [reflexivity |].
    apply in_class_In. apply in_or_app. now right.
Qed.
End ValidatorFacts.

(** ** The CIF checksum *)

Lemma sum_from (l : list Z) (acc : Z) : fold_left Z.add l acc = acc + sum l.
Proof.
  unfold sum. revert acc. induction l as [| x r IH]; intros acc.
  - simpl. lia.
  - cbn [fold_left]. rewrite IH, (IH (0 + x)). lia.
Qed.

Lemma sum_cons (x : Z) (l : list Z) : sum (x :: l) = x + sum l.
Proof. unfold sum at 1. cbn [fold_left]. rewrite sum_from. lia. Qed.

(** Twice a digit, written out and read back digit by digit, sums to the
    digit sum of the double. *)
Lemma doubled_digit_units (c : ascii) :
  is_digit c = true ->
  exists units,
    mapM (fun unit => int [unit]) (str_of_int (digit_value c * 2))
    = Return units
    /\ sum units = digit_sum (digit_value c * 2).
Proof.
  intros H. apply is_digit_In in H. simpl in H.
  repeat (destruct H as [<- | H];
          [eexists; split; vm_compute; reflexivity |]).
  contradiction.
Qed.

Lemma parity_succ (i : Z) :
  ((i + 1) mod 2 =? 0) = negb (i mod 2 =? 0).
Proof.
  rewrite Z.add_mod by lia.
  pose proof (Z.mod_pos_bound i 2 ltac:(lia)) as Hb.
  assert (Hc : i mod 2 = 0 \/ i mod 2 = 1) by lia.
  destruct Hc as [-> | ->]; reflexivity.
Qed.

Lemma cif_odd_part (s : str) (i : Z) :
  all_digits s = true ->
  exists l,
    mapM (fun '(pos, digit) => int [digit])
      (filter (fun '(pos, _) => negb (pos mod 2 =? 0)) (enumerate_from i s))
    = Return l
    /\ sum l = odd_sum_from (i mod 2 =? 0) s.
Proof.
  revert i. induction s as [| c r IH]; intros i H.
  - exists []. split; reflexivity.
  - apply all_digits_cons in H. destruct H as [Hc Hr].
    destruct (IH (i + 1) Hr) as (l & El & Sl).
    rewrite parity_succ in Sl.
    cbn [enumerate_from filter odd_sum_from].
    destruct (i mod 2 =? 0) eqn:Ei; cbn [negb] in *.
    + exists l. split; [exact El | lia].
    + exists (digit_value c :: l). split.
      * cbn [mapM]. rewrite (int_digit c Hc). cbn [bind].
        rewrite El. reflexivity.
      * rewrite sum_cons. lia.
Qed.

Lemma cif_even_part (s : str) (i : Z) :
  all_digits s = true ->
  exists l,
    mapM (fun '(pos, digit) =>
            d <- int [digit] ;;
            units <- mapM (fun unit => int [unit]) (str_of_int (d * 2)) ;;
            Return (sum units))
      (filter (fun '(pos, _) => pos mod 2 =? 0) (enumerate_from i s))
    = Return l
    /\ sum l = even_sum_from (i mod 2 =? 0) s.
Proof.
  revert i. induction s as [| c r IH]; intros i H.
  - exists []. split; reflexivity.
  - apply all_digits_cons in H. destruct H as [Hc Hr].
    destruct (IH (i + 1) Hr) as (l & El & Sl).
    rewrite parity_succ in Sl.
    cbn [enumerate_from filter even_sum_from].
    destruct (i mod 2 =? 0) eqn:Ei; cbn [negb] in *.
    + destruct (doubled_digit_units c Hc) as (units & Eu & Su).
      exists (sum units :: l). split.
      * cbn [mapM]. rewrite (int_digit c Hc). cbn [bind].
        rewrite Eu. cbn [bind]. rewrite El. reflexivity.
      * rewrite sum_cons. lia.
    + exists l. split; [exact El | lia].
Qed.

Lemma cif_get_checksum_digits (number : str) :
  all_digits number = true ->
  cif_get_checksum number = Return (cif_checksum_digit number).
Proof.
  intros H. unfold cif_get_checksum, enumerate.
  destruct (cif_odd_part number 0 H) as (l1 & E1 & S1).
  destruct (cif_even_part number 0 H) as (l2 & E2 & S2).
  rewrite E1. cbn [bind]. rewrite E2. cbn [bind].
  change (0 mod 2 =? 0) with true in S1, S2.
  unfold cif_checksum_digit, odd_sum, even_sum. now rewrite S1, S2.
Qed.

Lemma cif_checksum_digit_range (number : str) :
  0 <= cif_checksum_digit number <= 9.
Proof.
  unfold cif_checksum_digit.
  pose proof (Z.mod_pos_bound
                (10 - (odd_sum number + even_sum number) mod 10) 10
                ltac:(lia)).
  lia.
Qed.

(** ** The CIF branch *)

Section CifBranch.
Local Abbreviation V := (ESIdentityCardNumberValidator_init false).

Lemma cif_type_branch (t : ascii) :
  In t (cif_types V) ->
  opt_of_class (cif_types V ++ nie_types V) [t]
  /\ contains (nie_types V) [t] = false
  /\ contains (cif_types V) [t] = true.
Proof.
  intros Ht. split.
  - right. exists t. split; [reflexivity |].
    apply in_class_In. apply in_or_app. now left.
  - simpl in Ht.
    repeat (destruct Ht as [<- | Ht]; [split; reflexivity |]).
    contradiction.
Qed.

Lemma len_7_8 (ds : str) :
  len ds = 7 \/ len ds = 8 -> (len ds =? 7) || (len ds =? 8) = true.
Proof.
  intros [-> | ->]; reflexivity.
Qed.

Lemma cif_control_entry (number : str) :
  exists c,
    nth_error (cif_control V) (Z.to_nat (cif_checksum_digit number)) = Some c
    /\ getitem (cif_control V) (cif_checksum_digit number) = Return c.
Proof.
  apply getitem_in_range. change (len (cif_control V)) with 10.
  pose proof (cif_checksum_digit_range number). lia.
Qed.

(** A CIF with a trailing letter: the checksum is taken over all the
    digits and compared, through the control alphabet, with the
    letter. *)
Lemma call_cif_letter (t : ascii) (ds : str) (L c : ascii) :
  In t (cif_types V) -> all_digits ds = true ->
  len ds = 7 \/ len ds = 8 ->
  in_class L (nif_control V ++ cif_control V) = true ->
  nth_error (cif_control V) (Z.to_nat (cif_checksum_digit ds)) = Some c ->
  ESIdentityCardNumberValidator_call V (t :: ds ++ [L])
  = if Ascii.eqb L c then Return tt else ValidationError invalid_cif.
Proof.
  intros Ht Hd Hlen HL Hc.
  destruct (cif_type_branch t Ht) as (H1 & H2 & H3).
  assert (Hne : ds <> []).
  { intros ->. destruct Hlen as [E | E]; discriminate E. }
  unfold ESIdentityCardNumberValidator_call.
  change (t :: ds ++ [L]) with ([t] ++ ds ++ [L]).
  rewrite match_groups; [| assumption | assumption | assumption
                         | right; now exists L].
  rewrite H2, H3, (len_7_8 ds Hlen).
  cbn [truthy negb andb only_nif ESIdentityCardNumberValidator_init bind].
  rewrite (cif_get_checksum_digits ds Hd). cbn [bind].
  destruct (cif_control_entry ds) as (c' & E1 & E2).
  rewrite E2. cbn [bind py_eqb orb].
  rewrite str_eqb_single.
  assert (c' = c) as -> by congruence. reflexivity.
Qed.

(** A CIF with no trailing letter: the last digit is the check
    character and the checksum is taken over the digits before it. *)
Lemma call_cif_digit (t : ascii) (body : str) (d : ascii) :
  In t (cif_types V) -> all_digits (body ++ [d]) = true ->
  len (body ++ [d]) = 7 \/ len (body ++ [d]) = 8 ->
  ESIdentityCardNumberValidator_call V (t :: body ++ [d])
  = if digit_value d =? cif_checksum_digit body then Return tt
    else ValidationError invalid_cif.
Proof.
  intros Ht Hd Hlen.
  destruct (cif_type_branch t Ht) as (H1 & H2 & H3).
  apply all_digits_app in Hd as Hd'. destruct Hd' as [Hb Hd1].
  apply all_digits_cons in Hd1. destruct Hd1 as [Hd1 _].
  unfold ESIdentityCardNumberValidator_call.
  replace (t :: body ++ [d]) with ([t] ++ (body ++ [d]) ++ [])
    by (now rewrite app_nil_r).
  rewrite match_groups; [| assumption | now destruct body | assumption
                         | now left].
  rewrite H2, H3, (len_7_8 _ Hlen).
  cbn [truthy negb andb only_nif ESIdentityCardNumberValidator_init].
  rewrite getitem_last. cbn [bind]. rewrite (int_digit d Hd1).
  cbn [bind]. unfold slice_but_last. rewrite removelast_last.
  rewrite (cif_get_checksum_digits body Hb). cbn [bind].
  destruct (cif_control_entry body) as (c' & E1 & E2).
  rewrite E2. cbn [bind py_eqb]. now rewrite orb_false_r.
Qed.
End CifBranch.

(** ** The validator raises nothing but [ValidationError] *)

Section Totality.
Variable o : bool.
Local Abbreviation V := (ESIdentityCardNumberValidator_init o).

Lemma nif_branch_declared (d letter2 : str) (m : message) :
  d <> [] -> all_digits d = true ->
  declared (c <- nif_get_checksum V d ;;
            if str_eqb letter2 [c] then Return tt else ValidationError m).
Proof.
  intros Hne Hd.
  destruct (nif_get_checksum_digits o d Hne Hd) as (c & _ & ->).
  cbn [bind]. destruct (str_eqb letter2 [c]).
  - left. now exists tt.
  - right. now exists m.
Qed.

Lemma cif_tail_declared (number : str) (letter2 : pyval) :
  all_digits number = true ->
  declared (checksum <- cif_get_checksum number ;;
            c <- getitem (cif_control V) checksum ;;
            if py_eqb letter2 (PInt checksum) || py_eqb letter2 (PStr [c])
            then Return tt
            else ValidationError invalid_cif).
Proof.
  intros Hd. rewrite (cif_get_checksum_digits number Hd). cbn [bind].
  destruct (cif_control_entry number) as (c & _ & E).
  change (cif_control V) with (cif_control
    (ESIdentityCardNumberValidator_init false)).
  rewrite E. cbn [bind].
  destruct (py_eqb letter2 (PInt (cif_checksum_digit number))
            || py_eqb letter2 (PStr [c])).
  - left. now exists tt.
  - right. now exists invalid_cif.
Qed.

(** The digit put in front of the number in the NIE branch. *)
Lemma nie_leading_digit (letter1 : str) :
  opt_of_class (cif_types V ++ nie_types V) letter1 ->
  contains (nie_types V) letter1 = true ->
  all_digits (replace (replace (replace letter1 (lit "X") (lit "0"))
                         (lit "Y") (lit "1")) (lit "Z") (lit "2")) = true.
Proof.
  intros [-> | (c & -> & Hc)] Hn; [reflexivity |].
  apply in_class_In in Hc. simpl in Hc.
  repeat (destruct Hc as [<- | Hc];
          [first [discriminate Hn | reflexivity] |]).
  contradiction.
Qed.

Lemma call_declared (value : str) :
  declared (ESIdentityCardNumberValidator_call V value).
Proof.
  unfold ESIdentityCardNumberValidator_call.
  destruct (re_match_identity _ _ value) as [[[letter1 number] letter2] |]
    eqn:E; [| right; now exists invalid].
  apply re_match_identity_sound in E.
  destruct E as (H1 & Hne & Hd & H2 & _).
  destruct (negb (truthy letter1) && truthy letter2).
  { now apply nif_branch_declared. }
  destruct (contains (nie_types V) letter1 && truthy letter2) eqn:En.
  { apply andb_true_iff in En. destruct En as [En _].
    apply nif_branch_declared.
    - intros Happ. apply app_eq_nil in Happ. now destruct Happ.
    - apply all_digits_app. split; [| assumption].
      now apply nie_leading_digit. }
  destruct (negb (only_nif V) && contains (cif_types V) letter1
            && ((len number =? 7) || (len number =? 8)));
    [| right; now exists invalid].
  destruct (truthy letter2); cbn [negb].
  - cbn [bind]. now apply cif_tail_declared.
  - destruct number as [| c r] using rev_ind; [contradiction |].
    rewrite getitem_last. cbn [bind].
    apply all_digits_app in Hd as Hd'. destruct Hd' as [Hb Hc].
    apply all_digits_cons in Hc. destruct Hc as [Hc _].
    rewrite (int_digit c Hc). cbn [bind].
    apply cif_tail_declared. unfold slice_but_last.
    now rewrite removelast_last.
Qed.
End Totality.

(** ** The bank account checksum *)

Lemma weighted_products (d : str) (ws : list Z) :
  all_digits d = true ->
  exists products,
    mapM (fun '(digit, control) => n <- int [digit] ;; Return (n * control))
      (zip d ws) = Return products
    /\ sum products = weighted_sum d ws.
Proof.
  revert ws. induction d as [| c r IH]; intros ws H.
  - exists []. split; reflexivity.
  - destruct ws as [| w ws]; [exists []; split; reflexivity |].
    apply all_digits_cons in H. destruct H as [Hc Hr].
    destruct (IH ws Hr) as (l & El & Sl).
    exists (digit_value c * w :: l). split.
    + unfold zip in *. cbn [combine mapM]. rewrite (int_digit c Hc).
      cbn [bind]. rewrite El. reflexivity.
    + rewrite sum_cons. cbn [weighted_sum]. lia.
Qed.

(** The two [replace] calls map the numerals of 10 and 11 and leave the
    other ones. *)
Lemma checksum_numeral (x : Z) :
  0 <= x < 11 ->
  replace (replace (str_of_int (11 - x)) (lit "10") (lit "1"))
    (lit "11") (lit "0")
  = str_of_int (let r := 11 - x in
                if r =? 10 then 1 else if r =? 11 then 0 else r).
Proof.
  intros Hx.
  assert (H : x = 0 \/ x = 1 \/ x = 2 \/ x = 3 \/ x = 4 \/ x = 5 \/ x = 6
              \/ x = 7 \/ x = 8 \/ x = 9 \/ x = 10) by lia.
  repeat (destruct H as [-> | H]; [reflexivity |]).
  subst x. reflexivity.
Qed.

Lemma get_checksum_digits (d : str) :
  all_digits d = true ->
  get_checksum d = Return (str_of_int (ccc_checksum d)).
Proof.
  intros H. unfold get_checksum.
  destruct (weighted_products d control_str H) as (l & El & Sl).
  rewrite El. cbn [bind]. rewrite Sl. unfold ccc_checksum.
  now rewrite checksum_numeral by (apply Z.mod_pos_bound; lia).
Qed.

Lemma ccc_checksum_range (d : str) : 0 <= ccc_checksum d <= 9.
Proof.
  unfold ccc_checksum.
  pose proof (Z.mod_pos_bound (weighted_sum d control_str) 11 ltac:(lia)).
  cbv zeta.
  destruct (11 - weighted_sum d control_str mod 11 =? 10) eqn:E1; [lia |].
  destruct (11 - weighted_sum d control_str mod 11 =? 11) eqn:E2; [lia |].
  apply Z.eqb_neq in E1, E2. lia.
Qed.

(** ** Normalization *)

Lemma replace_char_away (c : ascii) (s : str) :
  replace s [c] [] = filter (fun x => negb (Ascii.eqb c x)) s.
Proof.
  unfold replace. induction s as [| x r IH]; [reflexivity |].
  cbn [replace_from startswith filter List.length Nat.sub app].
  destruct r as [| y r'].
  - destruct (Ascii.eqb c x); reflexivity.
  - change (startswith (y :: r') []) with true. rewrite andb_true_r.
    destruct (Ascii.eqb c x); cbn [negb]; now rewrite IH.
Qed.

Lemma normalize_filter (s : str) :
  normalize s = filter kept (map upper_char s).
Proof.
  unfold normalize, upper.
  change (lit " ") with [" "%char]. change (lit "-") with ["-"%char].
  change (lit "") with (@nil ascii).
  rewrite !replace_char_away.
  induction (map upper_char s) as [| x r IH]; [reflexivity |].
  cbn [filter]. unfold kept, is_separator.
  rewrite (Ascii.eqb_sym x " "), (Ascii.eqb_sym x "-").
  destruct (Ascii.eqb " " x); cbn [negb orb filter]; [exact IH |].
  destruct (Ascii.eqb "-" x); cbn [negb]; [exact IH |].
  now rewrite IH.
Qed.

Lemma upper_char_idem (c : ascii) : upper_char (upper_char c) = upper_char c.
Proof. destruct c as [[] [] [] [] [] [] [] []]; reflexivity. Qed.

Lemma upper_char_separator (c : ascii) :
  is_separator (upper_char c) = is_separator c.
Proof. destruct c as [[] [] [] [] [] [] [] []]; reflexivity. Qed.

Lemma normalize_cons (c : ascii) (s : str) :
  normalize (c :: s)
  = if is_separator c then normalize s else upper_char c :: normalize s.
Proof.
  rewrite !normalize_filter. cbn [map filter]. unfold kept at 1.
  rewrite upper_char_separator. now destruct (is_separator c).
Qed.

Lemma normalize_app (a b : str) :
  normalize (a ++ b) = normalize a ++ normalize b.
Proof.
  rewrite !normalize_filter, map_app. apply filter_app.
Qed.

Lemma normalize_idempotent (s : str) : normalize (normalize s) = normalize s.
Proof.
  induction s as [| c r IH]; [reflexivity |].
  rewrite normalize_cons. destruct (is_separator c) eqn:E; [exact IH |].
  rewrite normalize_cons, upper_char_separator, E, upper_char_idem.
  now rewrite IH.
Qed.

Lemma normalize_separators (seps : str) :
  forallb is_separator seps = true -> normalize seps = [].
Proof.
  induction seps as [| c r IH]; [reflexivity |].
  cbn [forallb]. intros H. apply andb_true_iff in H. destruct H as [Hc Hr].
  rewrite normalize_cons, Hc. now apply IH.
Qed.

(** The field validates the normalized value, whatever the value. *)
Lemma clean_normalizes (self : ESIdentityCardNumberField) (value : str) :
  ESIdentityCardNumberField_clean self value
  = Field_clean (field_required self)
      (ESIdentityCardNumberValidator_call (field_validators self))
      (normalize value).
Proof.
  unfold ESIdentityCardNumberField_clean. now destruct value.
Qed.

Lemma normalize_plain (s : str) :
  forallb plain s = true -> normalize s = s.
Proof.
  induction s as [| c r IH]; [reflexivity |].
  cbn [forallb]. intros H. apply andb_true_iff in H. destruct H as [Hc Hr].
  unfold plain, kept in Hc. apply andb_true_iff in Hc.
  destruct Hc as [Hu Hk]. apply Ascii.eqb_eq in Hu.
  apply negb_true_iff in Hk.
  rewrite normalize_cons, Hk, Hu. now rewrite IH.
Qed.

Lemma digit_plain (c : ascii) : is_digit c = true -> plain c = true.
Proof.
  intros H. apply is_digit_In in H. simpl in H.
  repeat (destruct H as [<- | H]; [reflexivity |]). contradiction.
Qed.

Lemma digits_plain (s : str) :
  all_digits s = true -> forallb plain s = true.
Proof.
  unfold all_digits. rewrite !forallb_forall.
  intros H c Hc. apply digit_plain. now apply H.
Qed.

Lemma class_letter_plain (o : bool) (c : ascii) :
  in_class c (nif_control (ESIdentityCardNumberValidator_init o)
              ++ cif_control (ESIdentityCardNumberValidator_init o)) = true
  \/ in_class c (cif_types (ESIdentityCardNumberValidator_init o)
                 ++ nie_types (ESIdentityCardNumberValidator_init o)) = true ->
  plain c = true.
Proof.
  intros [H | H]; apply in_class_In in H; simpl in H;
    repeat (destruct H as [<- | H]; [reflexivity |]); contradiction.
Qed.

(** On a value that normalization leaves alone, the field is its
    validator, and returns the value. *)
Lemma clean_plain (self : ESIdentityCardNumberField) (value : str) :
  value <> [] -> forallb plain value = true ->
  ESIdentityCardNumberField_clean self value
  = (ESIdentityCardNumberValidator_call (field_validators self) value ;;;
     Return value).
Proof.
  intros Hne Hp. rewrite clean_normalizes, (normalize_plain value Hp).
  unfold Field_clean. destruct value; [contradiction | reflexivity].
Qed.

(** ** NIF and NIE *)

Lemma call_nif_cases (o : bool) (D : str) (L : ascii) :
  D <> [] -> all_digits D = true ->
  in_class L (lit "TRWAGMYFPDXBNJZSQVHLCKE" ++ lit "JABCDEFGHI") = true ->
  exists c,
    nth_error (lit "TRWAGMYFPDXBNJZSQVHLCKE") (Z.to_nat (decimal D mod 23))
    = Some c
    /\ ESIdentityCardNumberValidator_call
         (ESIdentityCardNumberValidator_init o) (D ++ [L])
       = if Ascii.eqb L c then Return tt else ValidationError invalid_nif.
Proof.
  intros Hne Hd HL.
  destruct (nif_get_checksum_digits o D Hne Hd) as (c & E1 & E2).
  exists c. split; [exact E1 |].
  rewrite (call_nif o D L Hne Hd HL), E2. reflexivity.
Qed.

Lemma call_nie_cases (o : bool) (p : ascii) (D : str) (L : ascii) :
  In p (lit "XYZ") -> D <> [] -> all_digits D = true ->
  in_class L (lit "TRWAGMYFPDXBNJZSQVHLCKE" ++ lit "JABCDEFGHI") = true ->
  all_digits (nie_prefix_digit p :: D) = true /\
  exists c,
    nth_error (lit "TRWAGMYFPDXBNJZSQVHLCKE")
      (Z.to_nat (decimal (nie_prefix_digit p :: D) mod 23)) = Some c
    /\ ESIdentityCardNumberValidator_call
         (ESIdentityCardNumberValidator_init o) (p :: D ++ [L])
       = if Ascii.eqb L c then Return tt else ValidationError invalid_nie.
Proof.
  intros Hp Hne Hd HL.
  assert (Hd' : all_digits (nie_prefix_digit p :: D) = true).
  { apply all_digits_cons. split; [| assumption].
    simpl in Hp. destruct Hp as [<- | [<- | [<- | []]]]; reflexivity. }
  split; [exact Hd' |].
  destruct (nif_get_checksum_digits o (nie_prefix_digit p :: D)
              ltac:(discriminate) Hd') as (c & E1 & E2).
  exists c. split; [exact E1 |].
  rewrite (call_nie o p D L Hp Hne Hd HL), E2. reflexivity.
Qed.

(** C1: a value made of one or more digits [D] and a letter [L] of the
    combined control alphabets, with no prefix letter, is accepted as a
    NIF exactly when [L] is the entry [int(D) mod 23] of the NIF control
    alphabet, and any other such letter is answered with the NIF checksum
    error; so it is for the validator, whatever [only_nif], and for the
    field that normalizes and then validates. *)
Theorem nif_accepted_iff_control_letter (o : bool) (D : str) (L : ascii) :
  D <> [] -> all_digits D = true ->
  in_class L (lit "TRWAGMYFPDXBNJZSQVHLCKE" ++ lit "JABCDEFGHI") = true ->
  let V := ESIdentityCardNumberValidator_init o in
  let expected :=
    nth_error (lit "TRWAGMYFPDXBNJZSQVHLCKE") (Z.to_nat (decimal D mod 23)) in
  int D = Return (decimal D)
  /\ (ESIdentityCardNumberValidator_call V (D ++ [L]) = Return tt
      <-> expected = Some L)
  /\ (expected <> Some L ->
      ESIdentityCardNumberValidator_call V (D ++ [L])
      = ValidationError invalid_nif)
  /\ (forall req,
        let F := ESIdentityCardNumberField_init o req in
        (ESIdentityCardNumberField_clean F (D ++ [L]) = Return (D ++ [L])
         <-> expected = Some L)
        /\ (expected <> Some L ->
            ESIdentityCardNumberField_clean F (D ++ [L])
            = ValidationError invalid_nif)).
Proof.
  intros Hne Hd HL V expected.
  split; [now apply int_digits |].
  assert (Hcall : forall o', exists c, expected = Some c /\
            ESIdentityCardNumberValidator_call
              (ESIdentityCardNumberValidator_init o') (D ++ [L])
            = if Ascii.eqb L c then Return tt
              else ValidationError invalid_nif).
  { intros o'. now apply call_nif_cases. }
  destruct (Hcall o) as (c & Ec & Ecall).
  split; [| split].
  - subst V. rewrite Ecall, Ec. destruct (Ascii.eqb L c) eqn:E.
    + apply Ascii.eqb_eq in E. subst. now split.
    + apply Ascii.eqb_neq in E. split; [discriminate | congruence].
  - intros Hx. subst V. rewrite Ecall.
    destruct (Ascii.eqb L c) eqn:E; [| reflexivity].
    apply Ascii.eqb_eq in E. congruence.
  - intros req F.
    assert (Hclean : ESIdentityCardNumberField_clean F (D ++ [L])
                     = if Ascii.eqb L c then Return (D ++ [L])
                       else ValidationError invalid_nif).
    { rewrite clean_plain.
      - destruct (Hcall false) as (c' & Ec' & Ecall').
        assert (c' = c) as -> by congruence.
        cbn [F field_validators ESIdentityCardNumberField_init].
        rewrite Ecall'. now destruct (Ascii.eqb L c).
      - now destruct D.
      - rewrite forallb_app. apply andb_true_iff. split.
        + now apply digits_plain.
        + cbn [forallb]. rewrite andb_true_r.
          apply (class_letter_plain o). now left. }
    rewrite Hclean, Ec. destruct (Ascii.eqb L c) eqn:E.
    + apply Ascii.eqb_eq in E. subst. split; [now split | congruence].
    + apply Ascii.eqb_neq in E. split; [| reflexivity].
      split; [discriminate | congruence].
Qed.

Lemma nif_accepted_iff_control_letter_witness :
  ESIdentityCardNumberValidator_call
    (ESIdentityCardNumberValidator_init false) (lit "12345678" ++ ["Z"%char])
  = Return tt.
Proof.
  apply (nif_accepted_iff_control_letter false (lit "12345678") "Z"%char);
    [discriminate | reflexivity | reflexivity | reflexivity].
Defined.

(** C2: a value made of a prefix [p] among X, Y, Z, one or more digits
    [D] and a suffix letter [L] of the control alphabets is accepted as an
    NIE exactly when [L] is the NIF control letter of the digit string
    that puts the digit for [p] (0 for X, 1 for Y, 2 for Z) in front of
    [D]; any other suffix is answered with the NIE checksum error.  The
    specification's example [X1234567L] is accepted. *)
Theorem nie_accepted_iff_control_letter
    (o : bool) (p : ascii) (D : str) (L : ascii) :
  In p (lit "XYZ") -> D <> [] -> all_digits D = true ->
  in_class L (lit "TRWAGMYFPDXBNJZSQVHLCKE" ++ lit "JABCDEFGHI") = true ->
  let V := ESIdentityCardNumberValidator_init o in
  let mapped := nie_prefix_digit p :: D in
  let expected :=
    nth_error (lit "TRWAGMYFPDXBNJZSQVHLCKE")
      (Z.to_nat (decimal mapped mod 23)) in
  int mapped = Return (decimal mapped)
  /\ (ESIdentityCardNumberValidator_call V (p :: D ++ [L]) = Return tt
      <-> expected = Some L)
  /\ (expected <> Some L ->
      ESIdentityCardNumberValidator_call V (p :: D ++ [L])
      = ValidationError invalid_nie)
  /\ nie_prefix_digit "X" = "0"%char /\ nie_prefix_digit "Y" = "1"%char
  /\ nie_prefix_digit "Z" = "2"%char
  /\ ESIdentityCardNumberValidator_call V (lit "X1234567L") = Return tt.
Proof.
  intros Hp Hne Hd HL V mapped expected.
  destruct (call_nie_cases o p D L Hp Hne Hd HL) as (Hm & c & Ec & Ecall).
  fold mapped in Hm, Ec. fold expected in Ec. fold V in Ecall.
  split; [apply int_digits; [discriminate | exact Hm] |].
  rewrite Ecall, Ec.
  repeat split; try reflexivity.
  - destruct (Ascii.eqb L c) eqn:E; [| discriminate].
    apply Ascii.eqb_eq in E. now subst.
  - intros [= <-]. now rewrite Ascii.eqb_refl.
  - intros Hx. destruct (Ascii.eqb L c) eqn:E; [| reflexivity].
    apply Ascii.eqb_eq in E. congruence.
Qed.

Lemma nie_accepted_iff_control_letter_witness :
  ESIdentityCardNumberValidator_call
    (ESIdentityCardNumberValidator_init false)
    ("Y"%char :: lit "1234567" ++ ["X"%char])
  = Return tt.
Proof.
  destruct (nie_accepted_iff_control_letter false "Y"%char (lit "1234567")
              "X"%char) as (_ & H & _);
    [simpl; auto | discriminate | reflexivity | reflexivity |].
  apply H. reflexivity.
Defined.

(** ** CIF *)

(** C3: on every string of decimal digits, [cif_get_checksum] returns
    [(10 - ((odd_sum + even_sum) mod 10)) mod 10], where [odd_sum] adds the
    digits at the odd positions (counted from 0) as they are and
    [even_sum] adds, for the digits at the even positions, the decimal
    digit sum of twice the digit; a digit 8 at an even position adds 7
    (1 + 6, from 16). *)
Theorem cif_get_checksum_formula (number : str) :
  all_digits number = true ->
  cif_get_checksum number
  = Return ((10 - ((odd_sum number + even_sum number) mod 10)) mod 10)
  /\ digit_sum (8 * 2) = 7
  /\ (forall rest, even_sum ("8"%char :: rest)
                   = 7 + even_sum_from false rest)
  /\ (forall rest, odd_sum ("8"%char :: rest) = odd_sum_from false rest).
Proof.
  intros H. split; [now apply cif_get_checksum_digits |].
  split; [reflexivity |]. split; intros rest; reflexivity.
Qed.

Lemma cif_get_checksum_formula_witness :
  cif_get_checksum (lit "5881850") = Return 1.
Proof.
  apply (cif_get_checksum_formula (lit "5881850")). reflexivity.
Defined.

(** C4: for a CIF-shaped value (a type letter of ABCDEFGHJKLMNPQS and 7
    or 8 digits, with or without a trailing letter of the control
    alphabets) the check character is the trailing letter, with the
    checksum taken over all the digits, or else the last digit, with the
    checksum taken over the digits before it.  The value is accepted
    exactly when the check character is the checksum as a digit or the
    checksum's entry of JABCDEFGHI as a letter, and is otherwise answered
    with the CIF checksum error. *)
Theorem cif_check_character_accepted_iff (t : ascii) (ds : str) :
  In t (lit "ABCDEFGHJKLMNPQS") -> all_digits ds = true ->
  len ds = 7 \/ len ds = 8 ->
  let V := ESIdentityCardNumberValidator_init false in
  (forall L,
     in_class L (lit "TRWAGMYFPDXBNJZSQVHLCKE" ++ lit "JABCDEFGHI") = true ->
     (ESIdentityCardNumberValidator_call V (t :: ds ++ [L]) = Return tt
      <-> cif_check_character_ok L (cif_checksum_digit ds))
     /\ (~ cif_check_character_ok L (cif_checksum_digit ds) ->
         ESIdentityCardNumberValidator_call V (t :: ds ++ [L])
         = ValidationError invalid_cif))
  /\ (forall body d,
        ds = body ++ [d] ->
        (ESIdentityCardNumberValidator_call V (t :: ds) = Return tt
         <-> cif_check_character_ok d (cif_checksum_digit body))
        /\ (~ cif_check_character_ok d (cif_checksum_digit body) ->
            ESIdentityCardNumberValidator_call V (t :: ds)
            = ValidationError invalid_cif))
  /\ cif_get_checksum ds = Return (cif_checksum_digit ds).
Proof.
  intros Ht Hd Hlen V. subst V. split; [| split].
  - intros L HL.
    destruct (cif_control_entry ds) as (c & Ec & _).
    rewrite (call_cif_letter t ds L c Ht Hd Hlen HL Ec).
    assert (HLd : is_digit L = false).
    { now apply (suffix_class_letters false). }
    assert (Hok : cif_check_character_ok L (cif_checksum_digit ds)
                  <-> L = c).
    { unfold cif_check_character_ok. split.
      - intros [[H _] | H]; [congruence |].
        change (lit "JABCDEFGHI")
          with (cif_control (ESIdentityCardNumberValidator_init false)) in H.
        congruence.
      - intros ->. now right. }
    destruct (Ascii.eqb L c) eqn:E.
    + apply Ascii.eqb_eq in E. split; [now rewrite Hok |].
      intros Hn. now rewrite Hok in Hn.
    + apply Ascii.eqb_neq in E. split; [| reflexivity].
      rewrite Hok. split; [discriminate | contradiction].
  - intros body d ->.
    rewrite (call_cif_digit t body d Ht Hd Hlen).
    apply all_digits_app in Hd. destruct Hd as [_ Hd1].
    apply all_digits_cons in Hd1. destruct Hd1 as [Hd1 _].
    assert (Hok : cif_check_character_ok d (cif_checksum_digit body)
                  <-> digit_value d = cif_checksum_digit body).
    { unfold cif_check_character_ok. split.
      - intros [[_ H] | H]; [exact H |].
        apply nth_error_In in H.
        assert (Hl : is_digit d = false); [| congruence].
        apply letter_not_digit. simpl in H |- *. tauto.
      - intros H. left. now split. }
    destruct (digit_value d =? cif_checksum_digit body) eqn:E.
    + apply Z.eqb_eq in E. split; [now rewrite Hok |].
      intros Hn. now rewrite Hok in Hn.
    + apply Z.eqb_neq in E. split; [| reflexivity].
      rewrite Hok. split; [discriminate | contradiction].
  - now apply cif_get_checksum_digits.
Qed.

Lemma cif_check_character_accepted_iff_witness :
  ESIdentityCardNumberValidator_call
    (ESIdentityCardNumberValidator_init false)
    ("A"%char :: lit "58818501")
  = Return tt.
Proof.
  apply (proj1 (proj2 (cif_check_character_accepted_iff "A"%char
                         (lit "58818501")
                         ltac:(simpl; auto) eq_refl
                         ltac:(right; reflexivity)))
           (lit "5881850") "1"%char eq_refl).
  left. split; reflexivity.
Defined.

(** ** Bank account codes *)

(** C5: for a segment of ten digits the check digit that [get_checksum]
    writes is 11 minus the weighted digit sum modulo 11, under the weights
    1, 2, 4, 8, 5, 10, 9, 7, 3, 6, with 10 turned into 1 and 11 into 0.
    For entity 2100, office 0418 and account 0200051332 the two check
    digits are 4 and 5, and the field accepts 21000418450200051332. *)
Theorem ccc_checksum_weighted (segment : str) :
  len segment = 10 -> all_digits segment = true ->
  get_checksum segment
  = Return (str_of_int
              (let r := 11 - weighted_sum segment
                                [1; 2; 4; 8; 5; 10; 9; 7; 3; 6] mod 11 in
               if r =? 10 then 1 else if r =? 11 then 0 else r))
  /\ (c1 <- get_checksum (lit "00" ++ lit "2100" ++ lit "0418") ;;
      c2 <- get_checksum (lit "0200051332") ;;
      Return (c1 ++ c2)) = Return (lit "45")
  /\ forall required,
       ESCCCField_clean required (lit "21000418450200051332")
       = Return (lit "21000418450200051332").
Proof.
  intros _ Hd. split; [| split].
  - exact (get_checksum_digits segment Hd).
  - reflexivity.
  - intros []; reflexivity.
Qed.

Lemma ccc_checksum_weighted_witness :
  get_checksum (lit "0200051332") = Return (lit "5").
Proof.
  apply (ccc_checksum_weighted (lit "0200051332")); reflexivity.
Defined.

(** Counterexample to C7 as stated: a value accepted with its hyphens is
    returned with them, not in the digits-only form. *)
Lemma ccc_clean_keeps_separators :
  ESCCCField_clean true (lit "2100-0418-45-0200051332")
  = Return (lit "2100-0418-45-0200051332")
  /\ canonical_ccc (lit "2100-0418-45-0200051332")
     = lit "21000418450200051332"
  /\ lit "2100-0418-45-0200051332" <> lit "21000418450200051332".
Proof.
  split; [reflexivity |]. split; [reflexivity | discriminate].
Qed.

(** C7, amended: the value that [ESCCCField.clean] returns on success is
    the value it was given, unchanged. *)
Theorem ccc_clean_returns_input (required : bool) (value v : str) :
  ESCCCField_clean required value = Return v -> v = value.
Proof.
  unfold ESCCCField_clean, Field_clean.
  destruct value as [| c r]; cbn [truthy negb].
  - destruct required; cbn [bind]; [discriminate |].
    now intros [= <-].
  - unfold ccc_regex_validator.
    destruct (re_match_ccc (c :: r)) as [[[[e f] k] a] |];
      cbn [bind]; [| discriminate].
    destruct (get_checksum (lit "00" ++ e ++ f)) as [c1 | |];
      cbn [bind]; try discriminate.
    destruct (get_checksum a) as [c2 | |]; cbn [bind]; try discriminate.
    destruct (str_eqb (c1 ++ c2) k); [| discriminate].
    now intros [= <-].
Qed.

Lemma ccc_clean_returns_input_witness :
  ESCCCField_clean true (lit "2100 0418 45 0200051332")
  = Return (lit "2100 0418 45 0200051332")
  /\ lit "2100 0418 45 0200051332" = lit "2100 0418 45 0200051332".
Proof.
  split; [reflexivity |].
  apply (ccc_clean_returns_input true (lit "2100 0418 45 0200051332")
           (lit "2100 0418 45 0200051332")).
  reflexivity.
Defined.

(** ** The [only_nif] option *)

(** The validator a field installs does not depend on the field's
    [only_nif]. *)
Lemma field_ignores_only_nif (o required : bool) (value : str) :
  ESIdentityCardNumberField_clean
    (ESIdentityCardNumberField_init o required) value
  = ESIdentityCardNumberField_clean
      (ESIdentityCardNumberField_init false required) value.
Proof. reflexivity. Qed.

(** On NIF and NIE values the validator answers the same with and
    without [only_nif]. *)
Lemma only_nif_same_on_nif (D : str) (L : ascii) :
  D <> [] -> all_digits D = true ->
  in_class L (lit "TRWAGMYFPDXBNJZSQVHLCKE" ++ lit "JABCDEFGHI") = true ->
  ESIdentityCardNumberValidator_call
    (ESIdentityCardNumberValidator_init true) (D ++ [L])
  = ESIdentityCardNumberValidator_call
      (ESIdentityCardNumberValidator_init false) (D ++ [L]).
Proof.
  intros Hne Hd HL.
  now rewrite (call_nif true D L Hne Hd HL), (call_nif false D L Hne Hd HL).
Qed.

Lemma only_nif_same_on_nie (p : ascii) (D : str) (L : ascii) :
  In p (lit "XYZ") -> D <> [] -> all_digits D = true ->
  in_class L (lit "TRWAGMYFPDXBNJZSQVHLCKE" ++ lit "JABCDEFGHI") = true ->
  ESIdentityCardNumberValidator_call
    (ESIdentityCardNumberValidator_init true) (p :: D ++ [L])
  = ESIdentityCardNumberValidator_call
      (ESIdentityCardNumberValidator_init false) (p :: D ++ [L]).
Proof.
  intros Hp Hne Hd HL.
  now rewrite (call_nie true p D L Hp Hne Hd HL),
    (call_nie false p D L Hp Hne Hd HL).
Qed.

(** C6, at the valid CIF [A58818501]: a field built with [only_nif]
    accepts it, and a validator built with [only_nif] answers it with
    [invalid], the message it also gives to a value of no known shape;
    [invalid_only_nif] is not raised. *)
Theorem only_nif_on_valid_cif :
  ESIdentityCardNumberField_clean
    (ESIdentityCardNumberField_init true true) (lit "A58818501")
  = Return (lit "A58818501")
  /\ ESIdentityCardNumberValidator_call
       (ESIdentityCardNumberValidator_init true) (lit "A58818501")
     = ValidationError invalid
  /\ ESIdentityCardNumberValidator_call
       (ESIdentityCardNumberValidator_init true) (lit "ABC")
     = ValidationError invalid
  /\ ESIdentityCardNumberValidator_call
       (ESIdentityCardNumberValidator_init false) (lit "A58818501")
     = Return tt.
Proof. repeat split. Qed.

(** ** Values of no known shape *)

(** A value that is not made of an optional prefix letter, digits, an
    optional suffix letter and at most a final newline is answered with
    [invalid]. *)
Lemma call_no_match (o : bool) (value : str) :
  let V := ESIdentityCardNumberValidator_init o in
  (forall letter1 number letter2 tail,
     opt_of_class (cif_types V ++ nie_types V) letter1 ->
     number <> [] -> all_digits number = true ->
     opt_of_class (nif_control V ++ cif_control V) letter2 ->
     tail = [] \/ tail = [newline] ->
     value <> letter1 ++ number ++ letter2 ++ tail) ->
  ESIdentityCardNumberValidator_call V value = ValidationError invalid.
Proof.
  intros V H. unfold ESIdentityCardNumberValidator_call.
  destruct (re_match_identity _ _ value) as [[[l1 num] l2] |] eqn:E;
    [| reflexivity].
  apply re_match_identity_sound in E.
  destruct E as (H1 & Hne & Hd & H2 & tail & Ht & Hv).
  now destruct (H l1 num l2 tail).
Qed.

(** A value with a CIF type letter and a number of digits other than 7
    or 8 is answered with [invalid], with or without a suffix letter. *)
Lemma call_cif_wrong_length (o : bool) (t : ascii) (ds letter2 : str) :
  let V := ESIdentityCardNumberValidator_init o in
  In t (cif_types V) -> ds <> [] -> all_digits ds = true ->
  opt_of_class (nif_control V ++ cif_control V) letter2 ->
  len ds <> 7 -> len ds <> 8 ->
  ESIdentityCardNumberValidator_call V (t :: ds ++ letter2)
  = ValidationError invalid.
Proof.
  intros V Ht Hne Hd H2 H7 H8. subst V.
  destruct (cif_type_branch t Ht) as (H1 & Hn & Hc).
  unfold ESIdentityCardNumberValidator_call.
  change (t :: ds ++ letter2) with ([t] ++ ds ++ letter2).
  rewrite match_groups by assumption.
  change (nie_types (ESIdentityCardNumberValidator_init o))
    with (nie_types (ESIdentityCardNumberValidator_init false)).
  rewrite Hn. cbn [truthy negb andb].
  apply Z.eqb_neq in H7, H8. rewrite H7, H8.
  now rewrite andb_false_r.
Qed.

(** A value of 7 or 8 digits with no letter at all also takes the CIF
    branch: the empty prefix passes the test [letter1 in self.cif_types],
    and the last digit is checked against the digits before it. *)
Lemma call_digits_only :
  ESIdentityCardNumberValidator_call
    (ESIdentityCardNumberValidator_init false) (lit "12345674")
  = Return tt
  /\ ESIdentityCardNumberValidator_call
       (ESIdentityCardNumberValidator_init false) (lit "12345670")
     = ValidationError invalid_cif
  /\ ESIdentityCardNumberValidator_call
       (ESIdentityCardNumberValidator_init false) (lit "123456")
     = ValidationError invalid.
Proof. repeat split. Qed.

(** C8, at the value made of [1R] and a newline: it is not made of an
    optional prefix letter, digits and an optional suffix letter, yet the
    pattern's [$] matches before the final newline and the value is
    accepted as a NIF; with another letter the answer is the NIF checksum
    error.  Without the newline the shapes of the claim are answered with
    [invalid]. *)
Theorem trailing_newline_reaches_checksum :
  ESIdentityCardNumberValidator_call
    (ESIdentityCardNumberValidator_init false) (lit "1R" ++ [newline])
  = Return tt
  /\ ESIdentityCardNumberValidator_call
       (ESIdentityCardNumberValidator_init false) (lit "1T" ++ [newline])
     = ValidationError invalid_nif
  /\ ESIdentityCardNumberValidator_call
       (ESIdentityCardNumberValidator_init false) (lit "")
     = ValidationError invalid
  /\ ESIdentityCardNumberValidator_call
       (ESIdentityCardNumberValidator_init false) (lit "ABC")
     = ValidationError invalid
  /\ ESIdentityCardNumberValidator_call
       (ESIdentityCardNumberValidator_init false) (lit "A123456")
     = ValidationError invalid
  /\ ESIdentityCardNumberValidator_call
       (ESIdentityCardNumberValidator_init false) (lit "A123456789")
     = ValidationError invalid.
Proof. repeat split. Qed.

(** ** Normalization and the field *)

(** C9: normalization removes the spaces and hyphens and upper-cases the
    rest, and is idempotent; the field gives the same result for a value
    and for the value with spaces and hyphens put between its prefix, its
    digits and its suffix. *)
Theorem normalize_idempotent_separators_ignored
    (self : ESIdentityCardNumberField)
    (s prefix digits suffix sep1 sep2 : str) :
  forallb is_separator sep1 = true -> forallb is_separator sep2 = true ->
  normalize (normalize s) = normalize s
  /\ normalize s = filter (fun c => negb (is_separator c)) (map upper_char s)
  /\ ESIdentityCardNumberField_clean self
       (prefix ++ sep1 ++ digits ++ sep2 ++ suffix)
     = ESIdentityCardNumberField_clean self (prefix ++ digits ++ suffix).
Proof.
  intros H1 H2. split; [apply normalize_idempotent |].
  split; [apply normalize_filter |].
  rewrite !clean_normalizes, !normalize_app.
  rewrite (normalize_separators sep1 H1), (normalize_separators sep2 H2).
  reflexivity.
Qed.

Lemma normalize_idempotent_separators_ignored_witness :
  ESIdentityCardNumberField_clean (ESIdentityCardNumberField_init false true)
    (lit "x" ++ lit " -" ++ lit "1234567" ++ lit "- " ++ lit "l")
  = ESIdentityCardNumberField_clean (ESIdentityCardNumberField_init false true)
      (lit "x" ++ lit "1234567" ++ lit "l").
Proof.
  apply (normalize_idempotent_separators_ignored
           (ESIdentityCardNumberField_init false true) (lit "a b-c")
           (lit "x") (lit "1234567") (lit "l") (lit " -") (lit "- "));
    reflexivity.
Defined.

(** ** Table lookups *)

(** C10: [cif_get_checksum] returns an integer from 0 to 9 on every digit
    string, so the lookup in the ten-letter CIF control alphabet
    succeeds; [int(d) mod 23] indexes the 23-letter NIF control alphabet
    for every non-empty digit string [d]; and the validator, on any
    value, returns or raises [ValidationError] and nothing else. *)
Theorem validation_lookups_in_bounds
    (o : bool) (number d value : str) :
  all_digits number = true -> d <> [] -> all_digits d = true ->
  let V := ESIdentityCardNumberValidator_init o in
  (exists k c,
     cif_get_checksum number = Return k /\ 0 <= k <= 9
     /\ len (cif_control V) = 10
     /\ getitem (cif_control V) k = Return c)
  /\ (exists n c,
        int d = Return n /\ 0 <= n mod 23 < 23
        /\ len (nif_control V) = 23
        /\ getitem (nif_control V) (n mod 23) = Return c
        /\ nif_get_checksum V d = Return c)
  /\ (ESIdentityCardNumberValidator_call V value = Return tt
      \/ exists m,
           ESIdentityCardNumberValidator_call V value = ValidationError m).
Proof.
  intros Hn Hne Hd V. split; [| split].
  - destruct (cif_control_entry number) as (c & _ & Ec).
    exists (cif_checksum_digit number), c.
    split; [now apply cif_get_checksum_digits |].
    split; [apply cif_checksum_digit_range |].
    split; [reflexivity | exact Ec].
  - destruct (nif_get_checksum_digits o d Hne Hd) as (c & _ & Ec).
    exists (decimal d), c.
    split; [now apply int_digits |].
    split; [apply Z.mod_pos_bound; lia |].
    split; [reflexivity |].
    split; [| exact Ec].
    unfold nif_get_checksum in Ec.
    now rewrite (int_digits d Hne Hd) in Ec.
  - destruct (call_declared o value) as [([] & E) | (m & E)].
    + now left.
    + right. now exists m.
Qed.

Lemma validation_lookups_in_bounds_witness :
  ESIdentityCardNumberValidator_call
    (ESIdentityCardNumberValidator_init false) (lit "Q1234567#")
  = Return tt
  \/ exists m,
       ESIdentityCardNumberValidator_call
         (ESIdentityCardNumberValidator_init false) (lit "Q1234567#")
       = ValidationError m.
Proof.
  apply (validation_lookups_in_bounds false (lit "9999999") (lit "00000001")
           (lit "Q1234567#"));
    [reflexivity | discriminate | reflexivity].
Defined.


(** ** More on the validator *)

Section ValidatorAnswers.
Variable o : bool.
Local Abbreviation V := (ESIdentityCardNumberValidator_init o).

Lemma nif_branch_result (d letter2 : str) (m : message) :
  d <> [] -> all_digits d = true ->
  let r := (c <- nif_get_checksum V d ;;
            if str_eqb letter2 [c] then Return tt else ValidationError m) in
  r = Return tt \/ r = ValidationError m.
Proof.
  intros Hne Hd.
  destruct (nif_get_checksum_digits o d Hne Hd) as (c & _ & ->).
  cbn [bind]. destruct (str_eqb letter2 [c]); [now left | now right].
Qed.

Lemma cif_tail_result (number : str) (letter2 : pyval) :
  all_digits number = true ->
  let r := (checksum <- cif_get_checksum number ;;
            c <- getitem (cif_control V) checksum ;;
            if py_eqb letter2 (PInt checksum) || py_eqb letter2 (PStr [c])
            then Return tt
            else ValidationError invalid_cif) in
  r = Return tt \/ r = ValidationError invalid_cif.
Proof.
  intros Hd. rewrite (cif_get_checksum_digits number Hd). cbn [bind].
  destruct (cif_control_entry number) as (c & _ & E).
  change (cif_control V) with (cif_control
    (ESIdentityCardNumberValidator_init false)).
  rewrite E. cbn [bind].
  destruct (py_eqb letter2 (PInt (cif_checksum_digit number))
            || py_eqb letter2 (PStr [c])); [now left | now right].
Qed.

End ValidatorAnswers.

(** The validator has five answers: the value is accepted, or the error
    is one of [invalid], [invalid_nif], [invalid_nie] and [invalid_cif].
    The message [invalid_only_nif] of its table is never raised, and
    [invalid_cif] is not raised under [only_nif]. *)
Theorem validator_answers (o : bool) (value : str) :
  let r := ESIdentityCardNumberValidator_call
             (ESIdentityCardNumberValidator_init o) value in
  (r = Return tt \/ r = ValidationError invalid
   \/ r = ValidationError invalid_nif \/ r = ValidationError invalid_nie
   \/ (o = false /\ r = ValidationError invalid_cif))
  /\ r <> ValidationError invalid_only_nif.
Proof.
  assert (H : let r := ESIdentityCardNumberValidator_call
                         (ESIdentityCardNumberValidator_init o) value in
              r = Return tt \/ r = ValidationError invalid
              \/ r = ValidationError invalid_nif
              \/ r = ValidationError invalid_nie
              \/ (o = false /\ r = ValidationError invalid_cif)).
  { unfold ESIdentityCardNumberValidator_call.
    destruct (re_match_identity _ _ value) as [[[letter1 number] letter2] |]
      eqn:E; [| now right; left].
    apply re_match_identity_sound in E.
    destruct E as (H1 & Hne & Hd & H2 & _).
    destruct (negb (truthy letter1) && truthy letter2).
    { destruct (nif_branch_result o number letter2 invalid_nif Hne Hd)
        as [-> | ->]; tauto. }
    destruct (contains _ letter1 && truthy letter2) eqn:En.
    { apply andb_true_iff in En. destruct En as [En _].
      match goal with
      | |- context [nif_get_checksum _ ?d] =>
          destruct (nif_branch_result o d letter2 invalid_nie) as [-> | ->]
      end; try tauto.
      - intros Happ. apply app_eq_nil in Happ. now destruct Happ.
      - apply all_digits_app. split; [| assumption].
        now apply (nie_leading_digit o). }
    destruct o; cbn [only_nif ESIdentityCardNumberValidator_init negb andb];
      [now right; left |].
    destruct (contains _ letter1 && ((len number =? 7) || (len number =? 8)));
      [| now right; left].
    destruct (truthy letter2); cbn [negb].
    - cbn [bind].
      destruct (cif_tail_result false number (PStr letter2) Hd) as [E | E];
        cbv zeta in E; rewrite E; tauto.
    - destruct number as [| c r _] using rev_ind; [contradiction |].
      rewrite getitem_last. cbn [bind].
      apply all_digits_app in Hd as Hd'. destruct Hd' as [Hb Hc].
      apply all_digits_cons in Hc. destruct Hc as [Hc _].
      rewrite (int_digit c Hc). cbn [bind].
      unfold slice_but_last. rewrite removelast_last.
      destruct (cif_tail_result false r (PInt (digit_value c)) Hb)
        as [E | E]; cbv zeta in E; rewrite E; tauto. }
  split; [exact H |].
  cbv zeta in H |- *.
  destruct H as [-> | [-> | [-> | [-> | [_ ->]]]]]; discriminate.
Qed.

(** The identity pattern matches a value exactly when the value is made
    of an optional prefix letter, one or more digits, an optional suffix
    letter and at most a final newline, and then captures these parts. *)
Theorem identity_pattern_match_iff
    (o : bool) (value letter1 number letter2 : str) :
  let V := ESIdentityCardNumberValidator_init o in
  re_match_identity (cif_types V ++ nie_types V)
    (nif_control V ++ cif_control V) value
  = Some (letter1, number, letter2)
  <-> opt_of_class (cif_types V ++ nie_types V) letter1
      /\ number <> [] /\ all_digits number = true
      /\ opt_of_class (nif_control V ++ cif_control V) letter2
      /\ exists tail, (tail = [] \/ tail = [newline])
                      /\ value = letter1 ++ number ++ letter2 ++ tail.
Proof.
  intros V. split.
  - apply re_match_identity_sound.
  - intros (H1 & Hne & Hd & H2 & tail & Ht & ->).
    apply re_match_identity_complete;
      first [assumption | apply (prefix_class_letters o)
             | apply (suffix_class_letters o)].
Qed.

(** A character that is no digit, no letter of the two classes and not
    the newline makes the validator answer [invalid]: so do a space, a
    hyphen and the lower-case letters, which only the field removes or
    converts. *)
Theorem validator_rejects_foreign_character
    (o : bool) (value : str) (c : ascii) :
  let V := ESIdentityCardNumberValidator_init o in
  In c value -> is_digit c = false ->
  in_class c (cif_types V ++ nie_types V) = false ->
  in_class c (nif_control V ++ cif_control V) = false ->
  c <> newline ->
  ESIdentityCardNumberValidator_call V value = ValidationError invalid.
Proof.
  intros V Hin Hd HP HS Hnl. subst V. apply call_no_match.
  intros l1 num l2 tail H1 Hne Hnum H2 Ht ->.
  assert (Hopt : forall cls l, opt_of_class cls l -> In c l ->
                               in_class c cls = true).
  { intros cls l [-> | (x & -> & Hx)] Hc; [contradiction |].
    destruct Hc as [<- | []]. exact Hx. }
  apply in_app_or in Hin. destruct Hin as [Hin | Hin].
  { apply (Hopt _ _ H1) in Hin. congruence. }
  apply in_app_or in Hin. destruct Hin as [Hin | Hin].
  { unfold all_digits in Hnum. rewrite forallb_forall in Hnum.
    specialize (Hnum c Hin). congruence. }
  apply in_app_or in Hin. destruct Hin as [Hin | Hin].
  { apply (Hopt _ _ H2) in Hin. congruence. }
  destruct Ht as [-> | ->]; [contradiction |].
  destruct Hin as [<- | []]. now apply Hnl.
Qed.

Lemma validator_rejects_foreign_character_witness :
  ESIdentityCardNumberValidator_call
    (ESIdentityCardNumberValidator_init false) (lit "12345678-Z")
  = ValidationError invalid.
Proof.
  apply (validator_rejects_foreign_character false (lit "12345678-Z")
           "-"%char);
    [simpl; auto 12 | reflexivity | reflexivity | reflexivity | discriminate].
Defined.

(** A value of digits only is taken through the CIF branch when it has 7
    or 8 digits and [only_nif] is off: the empty prefix passes the test
    [letter1 in self.cif_types], the last digit is the check character
    and the digits before it are summed.  With any other number of
    digits, or under [only_nif], the answer is [invalid]. *)
Theorem digits_only_value (o : bool) (body : str) (d : ascii) :
  all_digits (body ++ [d]) = true ->
  ESIdentityCardNumberValidator_call
    (ESIdentityCardNumberValidator_init o) (body ++ [d])
  = if negb o && ((len (body ++ [d]) =? 7) || (len (body ++ [d]) =? 8))
    then if digit_value d =? cif_checksum_digit body then Return tt
         else ValidationError invalid_cif
    else ValidationError invalid.
Proof.
  intros Hd.
  apply all_digits_app in Hd as Hd'. destruct Hd' as [Hb Hd1].
  apply all_digits_cons in Hd1. destruct Hd1 as [Hd1 _].
  unfold ESIdentityCardNumberValidator_call.
  replace (body ++ [d]) with ([] ++ (body ++ [d]) ++ []) at 1
    by (now rewrite app_nil_r).
  rewrite match_groups; [| now left | now destruct body | assumption
                         | now left].
  cbn [truthy negb andb].
  change (contains (nie_types (ESIdentityCardNumberValidator_init o)) [])
    with true.
  change (contains (cif_types (ESIdentityCardNumberValidator_init o)) [])
    with true.
  cbn [andb only_nif ESIdentityCardNumberValidator_init].
  rewrite andb_true_r.
  destruct (negb o && ((len (body ++ [d]) =? 7) || (len (body ++ [d]) =? 8)));
    [| reflexivity].
  rewrite getitem_last. cbn [bind]. rewrite (int_digit d Hd1).
  cbn [bind]. unfold slice_but_last. rewrite removelast_last.
  rewrite (cif_get_checksum_digits body Hb). cbn [bind].
  destruct (cif_control_entry body) as (c' & E1 & E2).
  change (cif_control (ESIdentityCardNumberValidator_init o))
    with (cif_control (ESIdentityCardNumberValidator_init false)).
  rewrite E2. cbn [bind py_eqb]. now rewrite orb_false_r.
Qed.

Lemma digits_only_value_witness :
  ESIdentityCardNumberValidator_call
    (ESIdentityCardNumberValidator_init false) (lit "1234567" ++ ["4"%char])
  = Return tt.
Proof.
  apply (digits_only_value false (lit "1234567") "4"%char). reflexivity.
Defined.

(** Under [only_nif] a value that starts with a CIF type letter is
    answered with [invalid], whatever follows the letter. *)
Theorem only_nif_rejects_cif_prefix (t : ascii) (rest : str) :
  In t (lit "ABCDEFGHJKLMNPQS") ->
  ESIdentityCardNumberValidator_call
    (ESIdentityCardNumberValidator_init true) (t :: rest)
  = ValidationError invalid.
Proof.
  intros Ht. destruct (cif_type_branch t Ht) as (_ & Hn & _).
  assert (Htd : is_digit t = false).
  { apply letter_not_digit. simpl in Ht |- *. tauto. }
  unfold ESIdentityCardNumberValidator_call.
  destruct (re_match_identity _ _ (t :: rest)) as [[[l1 num] l2] |] eqn:E;
    [| reflexivity].
  apply re_match_identity_sound in E.
  destruct E as (H1 & Hne & Hd & H2 & tail & _ & Hv).
  destruct H1 as [-> | (c & -> & Hc)].
  - destruct num as [| x xs]; [contradiction |].
    injection Hv as <- _. apply all_digits_cons in Hd. destruct Hd.
    congruence.
  - injection Hv as <- _.
    change (nie_types (ESIdentityCardNumberValidator_init true))
      with (nie_types (ESIdentityCardNumberValidator_init false)).
    rewrite Hn. reflexivity.
Qed.

Lemma only_nif_rejects_cif_prefix_witness :
  ESIdentityCardNumberValidator_call
    (ESIdentityCardNumberValidator_init true) ("A"%char :: lit "58818501")
  = ValidationError invalid.
Proof.
  apply (only_nif_rejects_cif_prefix "A"%char (lit "58818501")).
  simpl. auto.
Defined.

(** ** The number behind a NIF *)

Lemma decimal_app (a b : str) :
  decimal (a ++ b) = decimal a * 10 ^ len b + decimal b.
Proof.
  unfold decimal at 1. rewrite fold_left_app. fold (decimal a).
  apply decimal_acc.
Qed.

Lemma decimal_zeros (n : nat) : decimal (repeat "0"%char n) = 0.
Proof.
  induction n as [| n IH]; [reflexivity |].
  change (repeat "0"%char (S n)) with (["0"%char] ++ repeat "0"%char n).
  rewrite decimal_app, IH. change (decimal ["0"%char]) with 0. lia.
Qed.

Lemma all_digits_zeros (n : nat) : all_digits (repeat "0"%char n) = true.
Proof. induction n as [| n IH]; [reflexivity | exact IH]. Qed.

Lemma nif_get_checksum_decimal (o : bool) (d d' : str) :
  d <> [] -> all_digits d = true -> d' <> [] -> all_digits d' = true ->
  decimal d mod 23 = decimal d' mod 23 ->
  nif_get_checksum (ESIdentityCardNumberValidator_init o) d
  = nif_get_checksum (ESIdentityCardNumberValidator_init o) d'.
Proof.
  intros Hne Hd Hne' Hd' E. unfold nif_get_checksum.
  rewrite (int_digits d Hne Hd), (int_digits d' Hne' Hd'). cbn [bind].
  now rewrite E.
Qed.

(** Zeros in front of the digits of a NIF do not change the answer. *)
Theorem nif_leading_zeros (o : bool) (n : nat) (D : str) (L : ascii) :
  D <> [] -> all_digits D = true ->
  in_class L (lit "TRWAGMYFPDXBNJZSQVHLCKE" ++ lit "JABCDEFGHI") = true ->
  ESIdentityCardNumberValidator_call
    (ESIdentityCardNumberValidator_init o) (repeat "0"%char n ++ D ++ [L])
  = ESIdentityCardNumberValidator_call
      (ESIdentityCardNumberValidator_init o) (D ++ [L]).
Proof.
  intros Hne Hd HL.
  assert (Hne' : repeat "0"%char n ++ D <> []).
  { intros H. apply app_eq_nil in H. now destruct H. }
  assert (Hd' : all_digits (repeat "0"%char n ++ D) = true).
  { apply all_digits_app. split; [apply all_digits_zeros | assumption]. }
  rewrite app_assoc.
  rewrite (call_nif o _ L Hne' Hd' HL), (call_nif o D L Hne Hd HL).
  rewrite (nif_get_checksum_decimal o (repeat "0"%char n ++ D) D);
    try assumption; [reflexivity |].
  rewrite decimal_app, decimal_zeros. reflexivity.
Qed.

Lemma nif_leading_zeros_witness :
  ESIdentityCardNumberValidator_call
    (ESIdentityCardNumberValidator_init false)
    (repeat "0"%char 3 ++ lit "12345678" ++ ["Z"%char])
  = ESIdentityCardNumberValidator_call
      (ESIdentityCardNumberValidator_init false)
      (lit "12345678" ++ ["Z"%char]).
Proof.
  apply (nif_leading_zeros false 3 (lit "12345678") "Z"%char);
    [discriminate | reflexivity | reflexivity].
Defined.

(** An NIE is answered as the NIF that has the digit of the prefix
    letter in its place: accepted together, and refused together, the one
    with [invalid_nie] and the other with [invalid_nif]. *)
Theorem nie_is_nif_after_substitution
    (o : bool) (p : ascii) (D : str) (L : ascii) :
  In p (lit "XYZ") -> D <> [] -> all_digits D = true ->
  in_class L (lit "TRWAGMYFPDXBNJZSQVHLCKE" ++ lit "JABCDEFGHI") = true ->
  let V := ESIdentityCardNumberValidator_init o in
  (ESIdentityCardNumberValidator_call V (p :: D ++ [L]) = Return tt
   <-> ESIdentityCardNumberValidator_call V (nie_prefix_digit p :: D ++ [L])
       = Return tt)
  /\ (ESIdentityCardNumberValidator_call V (p :: D ++ [L])
      = ValidationError invalid_nie
      <-> ESIdentityCardNumberValidator_call V
            (nie_prefix_digit p :: D ++ [L])
          = ValidationError invalid_nif).
Proof.
  intros Hp Hne Hd HL V. subst V.
  destruct (call_nie_cases o p D L Hp Hne Hd HL) as (Hd' & c & Ec & E1).
  rewrite E1.
  change (nie_prefix_digit p :: D ++ [L])
    with ((nie_prefix_digit p :: D) ++ [L]).
  destruct (call_nif_cases o (nie_prefix_digit p :: D) L
              ltac:(discriminate) Hd' HL) as (c' & Ec' & E2).
  rewrite E2. assert (c' = c) as -> by congruence.
  destruct (Ascii.eqb L c); split; split; congruence.
Qed.

Lemma nie_is_nif_after_substitution_witness :
  ESIdentityCardNumberValidator_call
    (ESIdentityCardNumberValidator_init false)
    ("X"%char :: lit "1234567" ++ ["L"%char]) = Return tt
  <-> ESIdentityCardNumberValidator_call
        (ESIdentityCardNumberValidator_init false)
        (nie_prefix_digit "X"%char :: lit "1234567" ++ ["L"%char])
      = Return tt.
Proof.
  apply (nie_is_nif_after_substitution false "X"%char (lit "1234567")
           "L"%char);
    [simpl; auto | discriminate | reflexivity | reflexivity].
Defined.

Lemma digit_value_inj (d d' : ascii) :
  digit_value d = digit_value d' -> d = d'.
Proof.
  unfold digit_value. intros H.
  rewrite <- (ascii_nat_embedding d), <- (ascii_nat_embedding d').
  f_equal. lia.
Qed.

Lemma decimal_single (d : ascii) : decimal [d] = digit_value d.
Proof. unfold decimal. cbn [fold_left]. lia. Qed.

Lemma decimal_one_digit (a b : str) (d : ascii) :
  decimal (a ++ d :: b)
  = decimal a * 10 ^ (len b + 1) + digit_value d * 10 ^ len b + decimal b.
Proof.
  rewrite decimal_app. change (d :: b) with ([d] ++ b).
  rewrite decimal_app, decimal_single.
  assert (Hl : len ([d] ++ b) = len b + 1).
  { unfold len. cbn [app List.length]. lia. }
  rewrite Hl. lia.
Qed.

Lemma divide_23_power_of_10 (x : Z) (n : nat) :
  (23 | x * 10 ^ Z.of_nat n) -> (23 | x).
Proof.
  induction n as [| n IH]; intros H.
  - now rewrite Z.mul_1_r in H.
  - apply IH. rewrite Nat2Z.inj_succ, Z.pow_succ_r in H by lia.
    apply (Z.gauss 23 10); [| reflexivity].
    now replace (10 * (x * 10 ^ Z.of_nat n))
      with (x * (10 * 10 ^ Z.of_nat n)) by lia.
Qed.

Lemma divide_23_power_of_len (x : Z) (b : str) :
  (23 | x * 10 ^ len b) -> (23 | x).
Proof. apply divide_23_power_of_10. Qed.

Lemma same_residue_divide (n n' m : Z) :
  0 < m -> n mod m = n' mod m -> (m | n - n').
Proof.
  intros Hm E. apply Z.mod_divide; [lia |].
  rewrite Zminus_mod, E, Z.sub_diag. reflexivity.
Qed.

(** Two digit strings that differ in one digit have different residues
    modulo 23. *)
Lemma one_digit_changes_residue (a b : str) (d d' : ascii) :
  is_digit d = true -> is_digit d' = true -> d <> d' ->
  decimal (a ++ d :: b) mod 23 <> decimal (a ++ d' :: b) mod 23.
Proof.
  intros Hd Hd' Hneq E.
  apply same_residue_divide in E; [| lia].
  rewrite !decimal_one_digit in E.
  replace (decimal a * 10 ^ (len b + 1) + digit_value d * 10 ^ len b
           + decimal b
           - (decimal a * 10 ^ (len b + 1) + digit_value d' * 10 ^ len b
              + decimal b))
    with ((digit_value d - digit_value d') * 10 ^ len b) in E by lia.
  apply divide_23_power_of_len in E.
  pose proof (digit_value_range d Hd). pose proof (digit_value_range d' Hd').
  assert (digit_value d <> digit_value d').
  { intros Hv. now apply digit_value_inj in Hv. }
  destruct E as [k Ek]. lia.
Qed.

Lemma nif_control_NoDup : NoDup (lit "TRWAGMYFPDXBNJZSQVHLCKE").
Proof.
  repeat (constructor; [simpl; intuition discriminate |]). constructor.
Qed.

Lemma cif_control_NoDup : NoDup (lit "JABCDEFGHI").
Proof.
  repeat (constructor; [simpl; intuition discriminate |]). constructor.
Qed.

(** A NIF that is accepted is refused with [invalid_nif] as soon as one
    of its digits is replaced by another digit. *)
Theorem nif_single_digit_error
    (o : bool) (a b : str) (d d' : ascii) (L : ascii) :
  all_digits (a ++ d :: b) = true -> is_digit d' = true -> d <> d' ->
  in_class L (lit "TRWAGMYFPDXBNJZSQVHLCKE" ++ lit "JABCDEFGHI") = true ->
  ESIdentityCardNumberValidator_call
    (ESIdentityCardNumberValidator_init o) (a ++ d :: b ++ [L]) = Return tt ->
  ESIdentityCardNumberValidator_call
    (ESIdentityCardNumberValidator_init o) (a ++ d' :: b ++ [L])
  = ValidationError invalid_nif.
Proof.
  intros HD Hd' Hneq HL.
  apply all_digits_app in HD as HD1. destruct HD1 as [Ha Hdb].
  apply all_digits_cons in Hdb. destruct Hdb as [Hd Hb].
  assert (HD' : all_digits (a ++ d' :: b) = true).
  { apply all_digits_app. split; [assumption |].
    apply all_digits_cons. now split. }
  replace (a ++ d :: b ++ [L]) with ((a ++ d :: b) ++ [L])
    by (now rewrite <- app_assoc).
  replace (a ++ d' :: b ++ [L]) with ((a ++ d' :: b) ++ [L])
    by (now rewrite <- app_assoc).
  destruct (call_nif_cases o (a ++ d :: b) L) as (c & Ec & ->);
    [now destruct a | assumption | assumption |].
  destruct (call_nif_cases o (a ++ d' :: b) L) as (c' & Ec' & ->);
    [now destruct a | assumption | assumption |].
  destruct (Ascii.eqb L c) eqn:E; [| discriminate]. intros _.
  apply Ascii.eqb_eq in E. subst c.
  destruct (Ascii.eqb L c') eqn:E'; [| reflexivity].
  apply Ascii.eqb_eq in E'. subst c'. exfalso.
  apply (one_digit_changes_residue a b d d' Hd Hd' Hneq).
  assert (Hi : Z.to_nat (decimal (a ++ d :: b) mod 23)
               = Z.to_nat (decimal (a ++ d' :: b) mod 23)).
  { apply (proj1 (NoDup_nth_error _) nif_control_NoDup).
    - apply nth_error_Some. congruence.
    - congruence. }
  pose proof (Z.mod_pos_bound (decimal (a ++ d :: b)) 23 ltac:(lia)).
  pose proof (Z.mod_pos_bound (decimal (a ++ d' :: b)) 23 ltac:(lia)).
  lia.
Qed.

Lemma nif_single_digit_error_witness :
  ESIdentityCardNumberValidator_call
    (ESIdentityCardNumberValidator_init false)
    (lit "123" ++ "9"%char :: lit "5678" ++ ["Z"%char])
  = ValidationError invalid_nif.
Proof.
  apply (nif_single_digit_error false (lit "123") (lit "5678") "4"%char
           "9"%char "Z"%char);
    [reflexivity | reflexivity | discriminate | reflexivity | reflexivity].
Defined.

(** Two adjacent digits of an accepted NIF, when they differ and are
    exchanged, give a value that is refused with [invalid_nif]. *)
Theorem nif_adjacent_transposition_error
    (o : bool) (a b : str) (d d' : ascii) (L : ascii) :
  all_digits (a ++ d :: d' :: b) = true -> d <> d' ->
  in_class L (lit "TRWAGMYFPDXBNJZSQVHLCKE" ++ lit "JABCDEFGHI") = true ->
  ESIdentityCardNumberValidator_call
    (ESIdentityCardNumberValidator_init o) (a ++ d :: d' :: b ++ [L])
  = Return tt ->
  ESIdentityCardNumberValidator_call
    (ESIdentityCardNumberValidator_init o) (a ++ d' :: d :: b ++ [L])
  = ValidationError invalid_nif.
Proof.
  intros HD Hneq HL.
  apply all_digits_app in HD as HD1. destruct HD1 as [Ha Hdb].
  apply all_digits_cons in Hdb. destruct Hdb as [Hd Hdb].
  apply all_digits_cons in Hdb. destruct Hdb as [Hd' Hb].
  assert (HD' : all_digits (a ++ d' :: d :: b) = true).
  { apply all_digits_app. split; [assumption |].
    apply all_digits_cons. split; [assumption |].
    apply all_digits_cons. now split. }
  replace (a ++ d :: d' :: b ++ [L]) with ((a ++ d :: d' :: b) ++ [L])
    by (now rewrite <- app_assoc).
  replace (a ++ d' :: d :: b ++ [L]) with ((a ++ d' :: d :: b) ++ [L])
    by (now rewrite <- app_assoc).
  destruct (call_nif_cases o (a ++ d :: d' :: b) L) as (c & Ec & ->);
    [now destruct a | assumption | assumption |].
  destruct (call_nif_cases o (a ++ d' :: d :: b) L) as (c' & Ec' & ->);
    [now destruct a | assumption | assumption |].
  destruct (Ascii.eqb L c) eqn:E; [| discriminate]. intros _.
  apply Ascii.eqb_eq in E. subst c.
  destruct (Ascii.eqb L c') eqn:E'; [| reflexivity].
  apply Ascii.eqb_eq in E'. subst c'. exfalso.
  assert (Hi : Z.to_nat (decimal (a ++ d :: d' :: b) mod 23)
               = Z.to_nat (decimal (a ++ d' :: d :: b) mod 23)).
  { apply (proj1 (NoDup_nth_error _) nif_control_NoDup).
    - apply nth_error_Some. congruence.
    - congruence. }
  pose proof (Z.mod_pos_bound (decimal (a ++ d :: d' :: b)) 23 ltac:(lia)).
  pose proof (Z.mod_pos_bound (decimal (a ++ d' :: d :: b)) 23 ltac:(lia)).
  assert (E : decimal (a ++ d :: d' :: b) mod 23
              = decimal (a ++ d' :: d :: b) mod 23) by lia.
  apply same_residue_divide in E; [| lia].
  rewrite !decimal_one_digit in E.
  change (d' :: b) with ([d'] ++ b) in E. change (d :: b) with ([d] ++ b) in E.
  rewrite !decimal_app, !decimal_single in E.
  assert (Hl : forall x : ascii, len ([x] ++ b) = len b + 1).
  { intros x. unfold len. cbn [app List.length]. lia. }
  rewrite !Hl in E.
  pose proof (len_nonneg b) as Hlb.
  rewrite !Z.pow_add_r in E by lia.
  change (10 ^ 1) with 10 in E.
  set (p := 10 ^ len b) in E.
  replace (_ - _)
    with (((digit_value d - digit_value d') * 9) * p) in E by ring.
  apply divide_23_power_of_len in E.
  rewrite Z.mul_comm in E. apply (Z.gauss 23 9) in E; [| reflexivity].
  pose proof (digit_value_range d Hd). pose proof (digit_value_range d' Hd').
  assert (digit_value d <> digit_value d').
  { intros Hv. now apply digit_value_inj in Hv. }
  destruct E as [k Ek]. lia.
Qed.

Lemma nif_adjacent_transposition_error_witness :
  ESIdentityCardNumberValidator_call
    (ESIdentityCardNumberValidator_init false)
    (lit "123" ++ "5"%char :: "4"%char :: lit "678" ++ ["Z"%char])
  = ValidationError invalid_nif.
Proof.
  apply (nif_adjacent_transposition_error false (lit "123") (lit "678")
           "4"%char "5"%char "Z"%char);
    [reflexivity | discriminate | reflexivity | reflexivity].
Defined.

(** ** The CIF sum, digit by digit *)

Lemma cif_sums_cons (even : bool) (c : ascii) (s : str) :
  odd_sum_from even (c :: s) + even_sum_from even (c :: s)
  = cif_digit_term even c
    + (odd_sum_from (negb even) s + even_sum_from (negb even) s).
Proof.
  cbn [odd_sum_from even_sum_from]. unfold cif_digit_term.
  destruct even; lia.
Qed.

Lemma cif_sums_app (a : str) (even : bool) :
  exists even',
    forall s,
      odd_sum_from even (a ++ s) + even_sum_from even (a ++ s)
      = odd_sum_from even a + even_sum_from even a
        + (odd_sum_from even' s + even_sum_from even' s).
Proof.
  revert even. induction a as [| c r IH]; intros even.
  - exists even. intros s. cbn [app odd_sum_from even_sum_from]. lia.
  - destruct (IH (negb even)) as (e' & He'). exists e'. intros s.
    change ((c :: r) ++ s) with (c :: (r ++ s)).
    rewrite !cif_sums_cons, He'. lia.
Qed.

Lemma cif_digit_term_range (even : bool) (c : ascii) :
  is_digit c = true -> 0 <= cif_digit_term even c <= 9.
Proof.
  intros H. apply is_digit_In in H. simpl in H.
  repeat (destruct H as [<- | H];
          [destruct even; vm_compute; split; discriminate |]).
  contradiction.
Qed.

Lemma cif_digit_term_inj (even : bool) (c c' : ascii) :
  is_digit c = true -> is_digit c' = true ->
  cif_digit_term even c = cif_digit_term even c' -> c = c'.
Proof.
  intros H H'. apply is_digit_In in H, H'. simpl in H, H'.
  repeat (destruct H as [<- | H];
          [repeat (destruct H' as [<- | H'];
                   [destruct even; vm_compute;
                    first [reflexivity | discriminate] |]);
           contradiction |]).
  contradiction.
Qed.

(** Replacing one digit by another changes the CIF checksum. *)
Lemma cif_one_digit_changes_checksum (a b : str) (d d' : ascii) :
  is_digit d = true -> is_digit d' = true -> d <> d' ->
  cif_checksum_digit (a ++ d :: b) <> cif_checksum_digit (a ++ d' :: b).
Proof.
  intros Hd Hd' Hneq. unfold cif_checksum_digit, odd_sum, even_sum.
  destruct (cif_sums_app a true) as (e & He).
  rewrite !He, !cif_sums_cons.
  pose proof (cif_digit_term_range e d Hd).
  pose proof (cif_digit_term_range e d' Hd').
  assert (cif_digit_term e d <> cif_digit_term e d').
  { intros E. now apply cif_digit_term_inj in E. }
  generalize dependent (cif_digit_term e d).
  generalize dependent (cif_digit_term e d').
  generalize (odd_sum_from true a + even_sum_from true a).
  generalize (odd_sum_from (negb e) b + even_sum_from (negb e) b).
  intros r l x' Hx' x Hx Hxx. Z.div_mod_to_equations. lia.
Qed.

(** A CIF that is accepted is refused with [invalid_cif] as soon as one
    of the digits that are summed is replaced by another digit, whether
    its check character is a letter or a digit. *)
Theorem cif_single_digit_error (t : ascii) (a b : str) (d d' : ascii) :
  In t (lit "ABCDEFGHJKLMNPQS") ->
  all_digits (a ++ d :: b) = true -> is_digit d' = true -> d <> d' ->
  let V := ESIdentityCardNumberValidator_init false in
  cif_get_checksum (a ++ d :: b) <> cif_get_checksum (a ++ d' :: b)
  /\ (forall L,
        in_class L (lit "TRWAGMYFPDXBNJZSQVHLCKE" ++ lit "JABCDEFGHI") = true ->
        ESIdentityCardNumberValidator_call V (t :: (a ++ d :: b) ++ [L])
        = Return tt ->
        ESIdentityCardNumberValidator_call V (t :: (a ++ d' :: b) ++ [L])
        = ValidationError invalid_cif)
  /\ (forall k,
        ESIdentityCardNumberValidator_call V (t :: (a ++ d :: b) ++ [k])
        = Return tt ->
        is_digit k = true ->
        ESIdentityCardNumberValidator_call V (t :: (a ++ d' :: b) ++ [k])
        = ValidationError invalid_cif).
Proof.
  intros Ht HD Hd' Hneq V. subst V.
  apply all_digits_app in HD as HD1. destruct HD1 as [Ha Hdb].
  apply all_digits_cons in Hdb. destruct Hdb as [Hd Hb].
  assert (HD' : all_digits (a ++ d' :: b) = true).
  { apply all_digits_app. split; [assumption |].
    apply all_digits_cons. now split. }
  pose proof (cif_one_digit_changes_checksum a b d d' Hd Hd' Hneq) as Hk.
  assert (Hlen : len (a ++ d' :: b) = len (a ++ d :: b)).
  { unfold len. rewrite !length_app. reflexivity. }
  split; [| split].
  - rewrite (cif_get_checksum_digits _ HD), (cif_get_checksum_digits _ HD').
    congruence.
  - intros L HL Hacc.
    assert (Hl : len (a ++ d :: b) = 7 \/ len (a ++ d :: b) = 8).
    { destruct (Z.eq_dec (len (a ++ d :: b)) 7) as [E | E7]; [now left |].
      destruct (Z.eq_dec (len (a ++ d :: b)) 8) as [E | E8]; [now right |].
      rewrite (call_cif_wrong_length false t (a ++ d :: b) [L]) in Hacc;
        [discriminate | assumption | now destruct a | assumption
         | right; now exists L | assumption | assumption]. }
    destruct (cif_control_entry (a ++ d :: b)) as (c & Ec & _).
    destruct (cif_control_entry (a ++ d' :: b)) as (c' & Ec' & _).
    rewrite (call_cif_letter t _ L c Ht HD Hl HL Ec) in Hacc.
    rewrite (call_cif_letter t _ L c' Ht HD' ltac:(now rewrite Hlen) HL Ec').
    destruct (Ascii.eqb L c) eqn:E; [| discriminate].
    apply Ascii.eqb_eq in E. subst c.
    destruct (Ascii.eqb L c') eqn:E'; [| reflexivity].
    apply Ascii.eqb_eq in E'. subst c'. exfalso.
    assert (Hi : Z.to_nat (cif_checksum_digit (a ++ d :: b))
                 = Z.to_nat (cif_checksum_digit (a ++ d' :: b))).
    { apply (proj1 (NoDup_nth_error _) cif_control_NoDup).
      - apply nth_error_Some.
        change (lit "JABCDEFGHI")
          with (cif_control (ESIdentityCardNumberValidator_init false)).
        congruence.
      - change (lit "JABCDEFGHI")
          with (cif_control (ESIdentityCardNumberValidator_init false)).
        congruence. }
    pose proof (cif_checksum_digit_range (a ++ d :: b)).
    pose proof (cif_checksum_digit_range (a ++ d' :: b)).
    lia.
  - intros k Hacc Hkd.
    assert (Hall : forall x, is_digit x = true ->
                             all_digits ((a ++ x :: b) ++ [k]) = true).
    { intros x Hx. apply all_digits_app. split.
      - apply all_digits_app. split; [assumption |].
        apply all_digits_cons. now split.
      - apply all_digits_cons. now split. }
    assert (Hlen' : len ((a ++ d' :: b) ++ [k]) = len ((a ++ d :: b) ++ [k])).
    { unfold len. rewrite !length_app. cbn [List.length]. lia. }
    assert (Hl : len ((a ++ d :: b) ++ [k]) = 7
                 \/ len ((a ++ d :: b) ++ [k]) = 8).
    { destruct (Z.eq_dec (len ((a ++ d :: b) ++ [k])) 7) as [E | E7];
        [now left |].
      destruct (Z.eq_dec (len ((a ++ d :: b) ++ [k])) 8) as [E | E8];
        [now right |].
      rewrite <- (app_nil_r ((a ++ d :: b) ++ [k])) in Hacc.
      rewrite (call_cif_wrong_length false t ((a ++ d :: b) ++ [k]) [])
        in Hacc;
        [discriminate | assumption | now destruct a | now apply Hall
         | now left | assumption | assumption]. }
    rewrite (call_cif_digit t _ k Ht (Hall d Hd) Hl) in Hacc.
    rewrite (call_cif_digit t _ k Ht (Hall d' Hd')
               ltac:(now rewrite Hlen')).
    destruct (digit_value k =? cif_checksum_digit (a ++ d :: b)) eqn:E;
      [| discriminate].
    apply Z.eqb_eq in E.
    destruct (digit_value k =? cif_checksum_digit (a ++ d' :: b)) eqn:E';
      [| reflexivity].
    apply Z.eqb_eq in E'. congruence.
Qed.

Lemma cif_single_digit_error_witness :
  ESIdentityCardNumberValidator_call
    (ESIdentityCardNumberValidator_init false)
    ("A"%char :: (lit "58" ++ "7"%char :: lit "1850") ++ ["1"%char])
  = ValidationError invalid_cif.
Proof.
  refine (proj2 (proj2 (cif_single_digit_error "A"%char (lit "58")
                          (lit "1850") "8"%char "7"%char
                          _ eq_refl eq_refl _)) "1"%char eq_refl eq_refl).
  - simpl. auto.
  - discriminate.
Defined.

(** The two forms of the CIF check character, on the same digits: with
    seven digits before it, the check digit [d] is accepted exactly when
    the letter for [d] in JABCDEFGHI is; with six digits before it only a
    check digit can be accepted, a letter gives [invalid]; with eight
    only a letter can, a digit gives [invalid]. *)
Theorem cif_check_forms (t : ascii) (body : str) (d c : ascii) :
  In t (lit "ABCDEFGHJKLMNPQS") -> all_digits body = true ->
  is_digit d = true ->
  nth_error (lit "JABCDEFGHI") (Z.to_nat (digit_value d)) = Some c ->
  let V := ESIdentityCardNumberValidator_init false in
  (len body = 7 ->
   (ESIdentityCardNumberValidator_call V (t :: body ++ [d]) = Return tt
    <-> ESIdentityCardNumberValidator_call V (t :: body ++ [c]) = Return tt))
  /\ (len body = 6 ->
      ESIdentityCardNumberValidator_call V (t :: body ++ [c])
      = ValidationError invalid)
  /\ (len body = 8 ->
      ESIdentityCardNumberValidator_call V (t :: body ++ [d])
      = ValidationError invalid).
Proof.
  intros Ht Hb Hd Hc V. subst V.
  assert (HcS : in_class c (lit "TRWAGMYFPDXBNJZSQVHLCKE" ++ lit "JABCDEFGHI")
                = true).
  { apply in_class_In. apply in_or_app. right.
    now apply nth_error_In in Hc. }
  assert (Hbd : all_digits (body ++ [d]) = true).
  { apply all_digits_app. split; [assumption |].
    apply all_digits_cons. now split. }
  assert (Hlen : len (body ++ [d]) = len body + 1).
  { unfold len. rewrite length_app. cbn [List.length]. lia. }
  split; [| split].
  - intros H7.
    rewrite (call_cif_digit t body d Ht Hbd ltac:(right; lia)).
    destruct (cif_control_entry body) as (c0 & Ec0 & _).
    rewrite (call_cif_letter t body c c0 Ht Hb ltac:(now left) HcS Ec0).
    change (cif_control (ESIdentityCardNumberValidator_init false))
      with (lit "JABCDEFGHI") in Ec0.
    pose proof (cif_checksum_digit_range body) as Hr.
    pose proof (digit_value_range d Hd) as Hv.
    destruct (digit_value d =? cif_checksum_digit body) eqn:E.
    + apply Z.eqb_eq in E. rewrite E in Hc.
      assert (c0 = c) as -> by congruence.
      rewrite Ascii.eqb_refl. tauto.
    + apply Z.eqb_neq in E.
      destruct (Ascii.eqb c c0) eqn:E'; [| split; discriminate].
      apply Ascii.eqb_eq in E'. subst c0. exfalso. apply E.
      assert (Hi : Z.to_nat (digit_value d)
                   = Z.to_nat (cif_checksum_digit body)).
      { apply (proj1 (NoDup_nth_error _) cif_control_NoDup).
        - apply nth_error_Some. congruence.
        - congruence. }
      lia.
  - intros H6.
    apply (call_cif_wrong_length false t body [c]); try assumption.
    + intros ->. discriminate H6.
    + right. now exists c.
    + lia.
    + lia.
  - intros H8. rewrite <- (app_nil_r (body ++ [d])).
    apply (call_cif_wrong_length false t (body ++ [d]) []); try assumption.
    + now destruct body.
    + now left.
    + lia.
    + lia.
Qed.

Lemma cif_check_forms_witness :
  ESIdentityCardNumberValidator_call
    (ESIdentityCardNumberValidator_init false)
    ("A"%char :: lit "5881850" ++ ["1"%char]) = Return tt
  <-> ESIdentityCardNumberValidator_call
        (ESIdentityCardNumberValidator_init false)
        ("A"%char :: lit "5881850" ++ ["A"%char]) = Return tt.
Proof.
  refine (proj1 (cif_check_forms "A"%char (lit "5881850") "1"%char "A"%char
                   _ eq_refl eq_refl eq_refl) eq_refl).
  simpl. auto.
Defined.

(** ** The bank account pattern *)

Lemma take_digits_spec (n : nat) (s d rest : str) :
  take_digits n s = Some (d, rest) ->
  s = d ++ rest /\ List.length d = n /\ all_digits d = true.
Proof.
  revert s d rest. induction n as [| n IH]; intros s d rest; cbn [take_digits].
  - intros [= <- <-]. now repeat split.
  - destruct s as [| c r]; [discriminate |].
    destruct (is_digit c) eqn:Hc; [| discriminate].
    destruct (take_digits n r) as [[d' rest'] |] eqn:E; [| discriminate].
    intros [= <- <-]. destruct (IH _ _ _ E) as (-> & Hl & Hd).
    repeat split.
    + cbn [List.length]. now rewrite Hl.
    + apply all_digits_cons. now split.
Qed.

Lemma take_digits_app (n : nat) (d rest : str) :
  List.length d = n -> all_digits d = true ->
  take_digits n (d ++ rest) = Some (d, rest).
Proof.
  intros <-. induction d as [| c r IH]; intros H; [reflexivity |].
  apply all_digits_cons in H. destruct H as [Hc Hr].
  cbn [List.length take_digits app]. now rewrite Hc, (IH Hr).
Qed.

Lemma opt_separator_spec (s sep rest : str) :
  opt_class (lit " -") s = (sep, rest) ->
  opt_separator sep /\ s = sep ++ rest.
Proof.
  intros H. apply opt_class_spec in H. destruct H as [H ->].
  split; [| reflexivity].
  destruct H as [-> | (c & -> & Hc)]; [now left |].
  apply in_class_In in Hc. simpl in Hc.
  destruct Hc as [<- | [<- | []]]; [right; now left | right; now right].
Qed.

Lemma opt_separator_skip (sep : str) (c : ascii) (r : str) :
  opt_separator sep -> is_digit c = true ->
  snd (opt_class (lit " -") (sep ++ c :: r)) = c :: r.
Proof.
  intros [-> | [-> | ->]] Hc; try reflexivity.
  cbn [app opt_class].
  destruct (in_class c (lit " -")) eqn:E; [| reflexivity].
  apply in_class_In in E. simpl in E.
  destruct E as [<- | [<- | []]]; discriminate Hc.
Qed.

(** The bank account pattern matches exactly the values of the shape
    [ccc_shape] and captures their four groups. *)
Lemma re_match_ccc_sound (value entity office check account : str) :
  re_match_ccc value = Some (entity, office, check, account) ->
  ccc_shape value entity office check account.
Proof.
  unfold re_match_ccc.
  destruct (take_digits 4 value) as [[e r1] |] eqn:E1; [| discriminate].
  destruct (opt_class (lit " -") r1) as [s1 r1'] eqn:S1. cbn [snd].
  destruct (take_digits 4 r1') as [[f r2] |] eqn:E2; [| discriminate].
  destruct (opt_class (lit " -") r2) as [s2 r2'] eqn:S2. cbn [snd].
  destruct (take_digits 2 r2') as [[k r3] |] eqn:E3; [| discriminate].
  destruct (opt_class (lit " -") r3) as [s3 r3'] eqn:S3. cbn [snd].
  destruct (take_digits 10 r3') as [[a r4] |] eqn:E4; [| discriminate].
  destruct (at_dollar r4) eqn:E5; [| discriminate].
  intros [= <- <- <- <-].
  apply take_digits_spec in E1, E2, E3, E4.
  apply opt_separator_spec in S1, S2, S3. apply at_dollar_spec in E5.
  destruct E1 as (-> & L1 & D1), E2 as (-> & L2 & D2),
    E3 as (-> & L3 & D3), E4 as (-> & L4 & D4).
  destruct S1 as [O1 ->], S2 as [O2 ->], S3 as [O3 ->].
  unfold ccc_shape. repeat split; try assumption.
  - rewrite !all_digits_app. tauto.
  - exists s1, s2, s3, r4. repeat split; assumption.
Qed.

Lemma re_match_ccc_complete (value entity office check account : str) :
  ccc_shape value entity office check account ->
  re_match_ccc value = Some (entity, office, check, account).
Proof.
  intros (L1 & L2 & L3 & L4 & D & s1 & s2 & s3 & tail
          & O1 & O2 & O3 & Ht & ->).
  rewrite !all_digits_app in D. destruct D as (D1 & D2 & D3 & D4).
  unfold re_match_ccc.
  rewrite (take_digits_app 4 entity _ L1 D1).
  destruct office as [| f0 f]; [discriminate L2 |].
  apply all_digits_cons in D2 as D2'. destruct D2' as [Df _].
  change ((f0 :: f) ++ s2 ++ check ++ s3 ++ account ++ tail)
    with (f0 :: (f ++ s2 ++ check ++ s3 ++ account ++ tail)).
  rewrite (opt_separator_skip s1 f0 _ O1 Df).
  change (f0 :: f ++ s2 ++ check ++ s3 ++ account ++ tail)
    with ((f0 :: f) ++ s2 ++ check ++ s3 ++ account ++ tail).
  rewrite (take_digits_app 4 (f0 :: f) _ L2 D2).
  destruct check as [| k0 k]; [discriminate L3 |].
  apply all_digits_cons in D3 as D3'. destruct D3' as [Dk _].
  change ((k0 :: k) ++ s3 ++ account ++ tail)
    with (k0 :: (k ++ s3 ++ account ++ tail)).
  rewrite (opt_separator_skip s2 k0 _ O2 Dk).
  change (k0 :: k ++ s3 ++ account ++ tail)
    with ((k0 :: k) ++ s3 ++ account ++ tail).
  rewrite (take_digits_app 2 (k0 :: k) _ L3 D3).
  destruct account as [| a0 a]; [discriminate L4 |].
  apply all_digits_cons in D4 as D4'. destruct D4' as [Da _].
  change ((a0 :: a) ++ tail) with (a0 :: (a ++ tail)).
  rewrite (opt_separator_skip s3 a0 _ O3 Da).
  change (a0 :: a ++ tail) with ((a0 :: a) ++ tail).
  rewrite (take_digits_app 10 (a0 :: a) _ L4 D4).
  replace (at_dollar tail) with true
    by (symmetry; now apply at_dollar_spec).
  reflexivity.
Qed.

(** [get_checksum] writes one digit. *)
Lemma get_checksum_digit_char (d : str) :
  all_digits d = true ->
  get_checksum d = Return [digit_char (ccc_checksum d)]
  /\ is_digit (digit_char (ccc_checksum d)) = true
  /\ digit_value (digit_char (ccc_checksum d)) = ccc_checksum d.
Proof.
  intros H. rewrite (get_checksum_digits d H).
  pose proof (ccc_checksum_range d) as Hr.
  assert (Hc : ccc_checksum d = 0 \/ ccc_checksum d = 1
               \/ ccc_checksum d = 2 \/ ccc_checksum d = 3
               \/ ccc_checksum d = 4 \/ ccc_checksum d = 5
               \/ ccc_checksum d = 6 \/ ccc_checksum d = 7
               \/ ccc_checksum d = 8 \/ ccc_checksum d = 9) by lia.
  repeat (destruct Hc as [-> | Hc]; [repeat split |]).
  rewrite Hc. repeat split.
Qed.

Lemma ccc_shape_nonempty (value e f k a : str) :
  ccc_shape value e f k a -> truthy value = true.
Proof.
  intros (L1 & _ & _ & _ & _ & s1 & s2 & s3 & tail & _ & _ & _ & _ & ->).
  destruct e; [discriminate L1 | reflexivity].
Qed.

Lemma ccc_clean_on_shape (required : bool) (value e f k a : str) :
  ccc_shape value e f k a ->
  ESCCCField_clean required value
  = if str_eqb [digit_char (ccc_checksum (lit "00" ++ e ++ f));
                digit_char (ccc_checksum a)] k
    then Return value
    else ValidationError invalid_checksum.
Proof.
  intros H. pose proof (re_match_ccc_complete _ _ _ _ _ H) as Em.
  pose proof (ccc_shape_nonempty _ _ _ _ _ H) as Hne.
  destruct H as (_ & _ & _ & _ & D & _).
  rewrite !all_digits_app in D. destruct D as (D1 & D2 & _ & D4).
  unfold ESCCCField_clean, Field_clean, ccc_regex_validator.
  rewrite Hne, Em. cbn [bind negb].
  assert (D0 : all_digits (lit "00" ++ e ++ f) = true).
  { rewrite !all_digits_app. now repeat split. }
  destruct (get_checksum_digit_char _ D0) as (-> & _).
  destruct (get_checksum_digit_char _ D4) as (-> & _).
  reflexivity.
Qed.

(** What [ESCCCField.clean] answers on a value that is not empty: when
    the value is four groups of 4, 4, 2 and 10 digits with at most one
    space or hyphen between two groups, it is returned if the two check
    digits are the ones computed from the other groups, and refused with
    the field's [checksum] message otherwise; any other value is refused
    with [invalid]. *)
Theorem ccc_clean_outcomes (required : bool) (value : str) :
  (forall e f k a,
     ccc_shape value e f k a ->
     (k = [digit_char (ccc_checksum (lit "00" ++ e ++ f));
           digit_char (ccc_checksum a)] ->
      ESCCCField_clean required value = Return value)
     /\ (k <> [digit_char (ccc_checksum (lit "00" ++ e ++ f));
               digit_char (ccc_checksum a)] ->
         ESCCCField_clean required value = ValidationError invalid_checksum))
  /\ (value <> [] ->
      (forall e f k a, ~ ccc_shape value e f k a) ->
      ESCCCField_clean required value = ValidationError invalid).
Proof.
  split.
  - intros e f k a H. rewrite (ccc_clean_on_shape required value e f k a H).
    split; intros Hk.
    + subst k. now rewrite str_eqb_refl.
    + destruct (str_eqb _ k) eqn:E; [| reflexivity].
      apply str_eqb_eq in E. congruence.
  - intros Hne Hno. unfold ESCCCField_clean, Field_clean, ccc_regex_validator.
    destruct value as [| c r]; [contradiction |]. cbn [truthy].
    destruct (re_match_ccc (c :: r)) as [[[[e f] k] a] |] eqn:E;
      [| reflexivity].
    apply re_match_ccc_sound in E. now destruct (Hno e f k a).
Qed.

Lemma ccc_shape_plain (e f k a : str) :
  List.length e = 4%nat -> List.length f = 4%nat ->
  List.length k = 2%nat -> List.length a = 10%nat ->
  all_digits (e ++ f ++ k ++ a) = true ->
  ccc_shape (e ++ f ++ k ++ a) e f k a.
Proof.
  intros L1 L2 L3 L4 D. unfold ccc_shape. repeat split; try assumption.
  exists [], [], [], []. repeat split; try (now left).
  cbn [app]. now rewrite app_nil_r.
Qed.

Lemma ccc_clean_outcomes_witness :
  ESCCCField_clean true (lit "2100 0418-45-0200051332")
  = Return (lit "2100 0418-45-0200051332").
Proof.
  refine (proj1 (proj1 (ccc_clean_outcomes true
                          (lit "2100 0418-45-0200051332"))
                   (lit "2100") (lit "0418") (lit "45") (lit "0200051332")
                   _) eq_refl).
  unfold ccc_shape. repeat split.
  exists [" "%char], ["-"%char], ["-"%char], [].
  repeat split; first [now left | right; now left | right; now right].
Defined.

(** The separators of a bank account do not count: a value of the
    pattern's shape gets the answer of its four groups written without
    separators, each value being returned as it was given. *)
Theorem ccc_separators_ignored (required : bool) (value e f k a : str) :
  ccc_shape value e f k a ->
  (ESCCCField_clean required value = Return value
   <-> ESCCCField_clean required (e ++ f ++ k ++ a)
       = Return (e ++ f ++ k ++ a))
  /\ (forall m,
        ESCCCField_clean required value = ValidationError m
        <-> ESCCCField_clean required (e ++ f ++ k ++ a)
            = ValidationError m).
Proof.
  intros H.
  assert (H' : ccc_shape (e ++ f ++ k ++ a) e f k a).
  { destruct H as (L1 & L2 & L3 & L4 & D & _).
    now apply ccc_shape_plain. }
  rewrite (ccc_clean_on_shape required _ e f k a H).
  rewrite (ccc_clean_on_shape required _ e f k a H').
  destruct (str_eqb _ k); split; try intros m; split; intros E;
    first [reflexivity | congruence].
Qed.

Lemma ccc_separators_ignored_witness :
  ESCCCField_clean true (lit "2100-0418-45-0200051332")
  = Return (lit "2100-0418-45-0200051332")
  <-> ESCCCField_clean true
        (lit "2100" ++ lit "0418" ++ lit "45" ++ lit "0200051332")
      = Return (lit "2100" ++ lit "0418" ++ lit "45" ++ lit "0200051332").
Proof.
  refine (proj1 (ccc_separators_ignored true (lit "2100-0418-45-0200051332")
                   (lit "2100") (lit "0418") (lit "45") (lit "0200051332")
                   _)).
  unfold ccc_shape. repeat split.
  exists ["-"%char], ["-"%char], ["-"%char], [].
  repeat split; first [now left | right; now right].
Defined.

(** ** Postal codes and phone numbers *)

Lemma decimal_bound (s : str) :
  all_digits s = true -> 0 <= decimal s < 10 ^ len s.
Proof.
  induction s as [| c r IH] using rev_ind; intros H.
  - split; [reflexivity | reflexivity].
  - apply all_digits_app in H. destruct H as [Hr Hc].
    apply all_digits_cons in Hc. destruct Hc as [Hc _].
    specialize (IH Hr). pose proof (digit_value_range c Hc).
    rewrite decimal_app, decimal_single.
    assert (Hl : len (r ++ [c]) = len r + 1).
    { unfold len. rewrite length_app. cbn [List.length]. lia. }
    rewrite Hl, Z.pow_add_r by (pose proof (len_nonneg r); lia).
    change (len [c]) with 1. change (10 ^ 1) with 10. nia.
Qed.

Lemma eqb_code (a c : ascii) :
  Ascii.eqb a c = true
  <-> Z.of_nat (nat_of_ascii a) = Z.of_nat (nat_of_ascii c).
Proof.
  rewrite Ascii.eqb_eq. split; [now intros -> |].
  intros H. apply Nat2Z.inj in H.
  rewrite <- (ascii_nat_embedding a), <- (ascii_nat_embedding c).
  now rewrite H.
Qed.

Lemma in_range_spec (lo hi c : ascii) :
  in_range lo hi c = true
  <-> Z.of_nat (nat_of_ascii lo) <= Z.of_nat (nat_of_ascii c)
                                 <= Z.of_nat (nat_of_ascii hi).
Proof.
  unfold in_range. rewrite andb_true_iff, !Z.leb_le. tauto.
Qed.

Lemma is_digit_spec (c : ascii) :
  is_digit c = true <-> 48 <= Z.of_nat (nat_of_ascii c) <= 57.
Proof.
  unfold is_digit. rewrite andb_true_iff, !Z.leb_le. tauto.
Qed.

(** The three alternatives of the postal code pattern, as a condition on
    the number that the two characters spell. *)
Lemma postal_prefix_spec (x y : ascii) :
  (Ascii.eqb x "0" && in_range "1" "9" y)
  || (in_range "1" "4" x && in_range "0" "9" y)
  || (Ascii.eqb x "5" && in_range "0" "2" y) = true
  <-> is_digit x = true /\ is_digit y = true /\ 1 <= decimal [x; y] <= 52.
Proof.
  rewrite !orb_true_iff, !andb_true_iff, !eqb_code, !in_range_spec,
    !is_digit_spec.
  unfold decimal, digit_value. cbn [fold_left].
  change (Z.of_nat (nat_of_ascii "0")) with 48.
  change (Z.of_nat (nat_of_ascii "1")) with 49.
  change (Z.of_nat (nat_of_ascii "2")) with 50.
  change (Z.of_nat (nat_of_ascii "4")) with 52.
  change (Z.of_nat (nat_of_ascii "5")) with 53.
  change (Z.of_nat (nat_of_ascii "9")) with 57.
  lia.
Qed.

Lemma decimal_two_then (x y : ascii) (r : str) :
  decimal (x :: y :: r) = decimal [x; y] * 10 ^ len r + decimal r.
Proof. change (x :: y :: r) with ([x; y] ++ r). apply decimal_app. Qed.

Lemma postal_match_iff (value : str) :
  (exists g, re_match_postal_code value = Some g)
  <-> exists d tail,
        value = d ++ tail /\ List.length d = 5%nat /\ all_digits d = true
        /\ 1000 <= decimal d <= 52999 /\ dollar_tail tail.
Proof.
  split.
  - intros (g & H). unfold re_match_postal_code in H.
    destruct value as [| x [| y r]]; try discriminate.
    match type of H with
    | (if ?c then _ else _) = _ => destruct c eqn:Ec; [| discriminate]
    end.
    apply postal_prefix_spec in Ec. destruct Ec as (Hx & Hy & Hxy).
    destruct (take_digits 3 r) as [[d3 rest] |] eqn:E3; [| discriminate].
    destruct (at_dollar rest) eqn:Et; [| discriminate].
    apply take_digits_spec in E3. destruct E3 as (-> & L3 & D3).
    apply at_dollar_spec in Et.
    exists (x :: y :: d3), rest. repeat split; try assumption.
    + cbn [List.length]. now rewrite L3.
    + apply all_digits_cons. split; [assumption |].
      apply all_digits_cons. now split.
    + rewrite decimal_two_then. pose proof (decimal_bound d3 D3) as Hb.
      unfold len in *. rewrite L3 in *. change (10 ^ Z.of_nat 3) with 1000 in *.
      lia.
    + rewrite decimal_two_then. pose proof (decimal_bound d3 D3) as Hb.
      unfold len in *. rewrite L3 in *. change (10 ^ Z.of_nat 3) with 1000 in *.
      lia.
  - intros (d & tail & -> & L & D & Hr & Ht).
    destruct d as [| x [| y d3]]; try discriminate L.
    injection L as L3.
    apply all_digits_cons in D. destruct D as [Hx D].
    apply all_digits_cons in D. destruct D as [Hy D3].
    rewrite decimal_two_then in Hr. pose proof (decimal_bound d3 D3) as Hb.
    unfold len in Hr, Hb. rewrite L3 in Hr, Hb.
    change (10 ^ Z.of_nat 3) with 1000 in Hr, Hb.
    assert (Hxy : 1 <= decimal [x; y] <= 52) by lia.
    exists [x; y]. unfold re_match_postal_code. cbn [app].
    rewrite (proj2 (postal_prefix_spec x y)) by now repeat split.
    rewrite (take_digits_app 3 d3 tail L3 D3).
    replace (at_dollar tail) with true
      by (symmetry; now apply at_dollar_spec).
    reflexivity.
Qed.

(** [ESPostalCodeField] returns a value that is not empty exactly when it
    is five digits that spell a number from 01000 to 52999, with at most
    a final newline after them; any other such value is refused with
    [invalid]. *)
Theorem postal_code_accepted_iff (required : bool) (value : str) :
  value <> [] ->
  (ESPostalCodeField_clean required value = Return value
   <-> exists d tail,
         value = d ++ tail /\ List.length d = 5%nat /\ all_digits d = true
         /\ 1000 <= decimal d <= 52999 /\ dollar_tail tail)
  /\ (ESPostalCodeField_clean required value = Return value
      \/ ESPostalCodeField_clean required value = ValidationError invalid).
Proof.
  intros Hne. rewrite <- postal_match_iff.
  unfold ESPostalCodeField_clean, Field_clean.
  destruct value as [| c r]; [contradiction |]. cbn [truthy].
  destruct (re_match_postal_code (c :: r)) as [g |]; cbn [bind].
  - split; [| now left]. split; [intros _; now exists g | reflexivity].
  - split; [| now right]. split; [discriminate | intros (g & H); discriminate].
Qed.

Lemma postal_code_accepted_iff_witness :
  ESPostalCodeField_clean true (lit "52999") = Return (lit "52999").
Proof.
  refine (proj2 (proj1 (postal_code_accepted_iff true (lit "52999") _)) _).
  - discriminate.
  - exists (lit "52999"), []. repeat split; try discriminate. now left.
Defined.

Lemma phone_prefix_spec (x : ascii) :
  Ascii.eqb x "6" || Ascii.eqb x "7" || Ascii.eqb x "8" || Ascii.eqb x "9"
  = true
  <-> is_digit x = true /\ 6 <= digit_value x.
Proof.
  rewrite !orb_true_iff, !eqb_code, is_digit_spec. unfold digit_value.
  change (Z.of_nat (nat_of_ascii "6")) with 54.
  change (Z.of_nat (nat_of_ascii "7")) with 55.
  change (Z.of_nat (nat_of_ascii "8")) with 56.
  change (Z.of_nat (nat_of_ascii "9")) with 57.
  lia.
Qed.

Lemma decimal_cons (x : ascii) (r : str) :
  decimal (x :: r) = digit_value x * 10 ^ len r + decimal r.
Proof.
  change (x :: r) with ([x] ++ r). now rewrite decimal_app, decimal_single.
Qed.

Lemma phone_match_iff (value : str) :
  (exists g, re_match_phone_number value = Some g)
  <-> exists d tail,
        value = d ++ tail /\ List.length d = 9%nat /\ all_digits d = true
        /\ 600000000 <= decimal d /\ dollar_tail tail.
Proof.
  split.
  - intros (g & H). unfold re_match_phone_number in H.
    destruct value as [| x r]; try discriminate.
    match type of H with
    | (if ?c then _ else _) = _ => destruct c eqn:Ec; [| discriminate]
    end.
    apply phone_prefix_spec in Ec. destruct Ec as (Hx & Hx6).
    destruct (take_digits 8 r) as [[d8 rest] |] eqn:E8; [| discriminate].
    destruct (at_dollar rest) eqn:Et; [| discriminate].
    apply take_digits_spec in E8. destruct E8 as (-> & L8 & D8).
    apply at_dollar_spec in Et.
    exists (x :: d8), rest. repeat split; try assumption.
    + cbn [List.length]. now rewrite L8.
    + apply all_digits_cons. now split.
    + rewrite decimal_cons. pose proof (decimal_bound d8 D8) as Hb.
      unfold len in *. rewrite L8 in *.
      change (10 ^ Z.of_nat 8) with 100000000 in *. lia.
  - intros (d & tail & -> & L & D & Hr & Ht).
    destruct d as [| x d8]; try discriminate L.
    injection L as L8.
    apply all_digits_cons in D. destruct D as [Hx D8].
    rewrite decimal_cons in Hr. pose proof (decimal_bound d8 D8) as Hb.
    unfold len in Hr, Hb. rewrite L8 in Hr, Hb.
    change (10 ^ Z.of_nat 8) with 100000000 in Hr, Hb.
    assert (Hx6 : 6 <= digit_value x) by lia.
    exists [x]. unfold re_match_phone_number. cbn [app].
    rewrite (proj2 (phone_prefix_spec x)) by now split.
    rewrite (take_digits_app 8 d8 tail L8 D8).
    replace (at_dollar tail) with true
      by (symmetry; now apply at_dollar_spec).
    reflexivity.
Qed.

(** [ESPhoneNumberField] returns a value that is not empty exactly when
    it is nine digits that spell a number from 600000000 up, with at most
    a final newline after them: the first digit is 6, 7, 8 or 9.  Any
    other such value is refused with [invalid]. *)
Theorem phone_number_accepted_iff (required : bool) (value : str) :
  value <> [] ->
  (ESPhoneNumberField_clean required value = Return value
   <-> exists d tail,
         value = d ++ tail /\ List.length d = 9%nat /\ all_digits d = true
         /\ 600000000 <= decimal d /\ dollar_tail tail)
  /\ (ESPhoneNumberField_clean required value = Return value
      \/ ESPhoneNumberField_clean required value = ValidationError invalid).
Proof.
  intros Hne. rewrite <- phone_match_iff.
  unfold ESPhoneNumberField_clean, Field_clean.
  destruct value as [| c r]; [contradiction |]. cbn [truthy].
  destruct (re_match_phone_number (c :: r)) as [g |]; cbn [bind].
  - split; [| now left]. split; [intros _; now exists g | reflexivity].
  - split; [| now right]. split; [discriminate | intros (g & H); discriminate].
Qed.

Lemma phone_number_accepted_iff_witness :
  ESPhoneNumberField_clean true (lit "712345678") = Return (lit "712345678").
Proof.
  refine (proj2 (proj1 (phone_number_accepted_iff true (lit "712345678") _))
            _).
  - discriminate.
  - exists (lit "712345678"), []. repeat split; try discriminate. now left.
Defined.

(** ** The identity field *)

Lemma upper_idem (s : str) : upper (upper s) = upper s.
Proof.
  unfold upper. rewrite map_map. apply map_ext. apply upper_char_idem.
Qed.

Lemma normalize_upper (s : str) : normalize (upper s) = normalize s.
Proof.
  rewrite !normalize_filter. fold (upper s). fold (upper (upper s)).
  now rewrite upper_idem.
Qed.

Lemma normalize_kept (s : str) (c : ascii) :
  In c (normalize s) -> is_separator c = false /\ upper_char c = c.
Proof.
  rewrite normalize_filter. intros H. apply filter_In in H.
  destruct H as [H Hk]. unfold kept in Hk. apply negb_true_iff in Hk.
  split; [exact Hk |]. apply in_map_iff in H.
  destruct H as (x & <- & _). apply upper_char_idem.
Qed.

(** What [ESIdentityCardNumberField.clean] returns is the normalized
    value, which holds no space, no hyphen and no lower-case letter; the
    returned value is accepted again and returned as it is.  The field
    does not tell a value from its upper-case form. *)
Theorem identity_field_returns_canonical
    (self : ESIdentityCardNumberField) (value v : str) :
  ESIdentityCardNumberField_clean self value = Return v ->
  v = normalize value
  /\ (forall c, In c v -> is_separator c = false /\ upper_char c = c)
  /\ ESIdentityCardNumberField_clean self v = Return v
  /\ ESIdentityCardNumberField_clean self (upper value) = Return v.
Proof.
  intros H. rewrite clean_normalizes in H.
  assert (Hv : v = normalize value).
  { unfold Field_clean in H. destruct (truthy (normalize value)).
    - destruct (ESIdentityCardNumberValidator_call _ _); cbn [bind] in H;
        congruence.
    - destruct (field_required self); congruence. }
  subst v. split; [reflexivity |].
  split; [apply normalize_kept |].
  rewrite !clean_normalizes, normalize_idempotent, normalize_upper.
  now split.
Qed.

Lemma identity_field_returns_canonical_witness :
  lit "X1234567L" = normalize (lit "x-1234567 l").
Proof.
  apply (identity_field_returns_canonical
           (ESIdentityCardNumberField_init false true)
           (lit "x-1234567 l") (lit "X1234567L")).
  reflexivity.
Defined.

(** ** [cif_get_checksum] on any string *)

Lemma int_not_digit (c : ascii) :
  is_digit c = false -> int [c] = Raise ValueError.
Proof. intros H. unfold int, int_acc. now rewrite H. Qed.

Lemma mapM_cons_cases {A B} (f : A -> outcome B) (x : A) (r : list A) :
  (forall a, f a = Raise ValueError \/ exists b, f a = Return b) ->
  (mapM f r = Raise ValueError \/ exists l, mapM f r = Return l) ->
  (mapM f (x :: r) = Raise ValueError
   \/ exists b l, f x = Return b /\ mapM f r = Return l
                  /\ mapM f (x :: r) = Return (b :: l)).
Proof.
  intros Hf Hr. cbn [mapM].
  destruct (Hf x) as [-> | (b & ->)]; [now left |]. cbn [bind].
  destruct Hr as [-> | (l & ->)]; [now left |]. cbn [bind].
  right. now exists b, l.
Qed.

Lemma mapM_cases {A B} (f : A -> outcome B) (l : list A) :
  (forall a, f a = Raise ValueError \/ exists b, f a = Return b) ->
  mapM f l = Raise ValueError \/ exists r, mapM f l = Return r.
Proof.
  intros Hf. induction l as [| x r IH]; [right; now exists [] |].
  destruct (mapM_cons_cases f x r Hf IH) as [H | (b & l & _ & _ & H)];
    [now left | right; now exists (b :: l)].
Qed.

Lemma cif_odd_term_cases (p : Z * ascii) :
  (let '(pos, digit) := p in int [digit]) = Raise ValueError
  \/ exists b, (let '(pos, digit) := p in int [digit]) = Return b.
Proof.
  destruct p as [pos c]. destruct (is_digit c) eqn:E.
  - right. exists (digit_value c). now apply int_digit.
  - left. now apply int_not_digit.
Qed.

Lemma cif_even_term_cases (p : Z * ascii) :
  (let '(pos, digit) := p in
   d <- int [digit] ;;
   units <- mapM (fun unit => int [unit]) (str_of_int (d * 2)) ;;
   Return (sum units)) = Raise ValueError
  \/ exists b,
       (let '(pos, digit) := p in
        d <- int [digit] ;;
        units <- mapM (fun unit => int [unit]) (str_of_int (d * 2)) ;;
        Return (sum units)) = Return b.
Proof.
  destruct p as [pos c]. destruct (is_digit c) eqn:E.
  - right. rewrite (int_digit c E). cbn [bind].
    destruct (doubled_digit_units c E) as (units & -> & _). cbn [bind].
    now exists (sum units).
  - left. now rewrite (int_not_digit c E).
Qed.

(** When both comprehensions of [cif_get_checksum] return, every
    character is a digit. *)
Lemma cif_parts_return_digits (s : str) (i : Z) :
  (exists l,
     mapM (fun '(pos, digit) => int [digit])
       (filter (fun '(pos, _) => negb (pos mod 2 =? 0)) (enumerate_from i s))
     = Return l) ->
  (exists l,
     mapM (fun '(pos, digit) =>
             d <- int [digit] ;;
             units <- mapM (fun unit => int [unit]) (str_of_int (d * 2)) ;;
             Return (sum units))
       (filter (fun '(pos, _) => pos mod 2 =? 0) (enumerate_from i s))
     = Return l) ->
  all_digits s = true.
Proof.
  revert i. induction s as [| c r IH]; intros i H1 H2; [reflexivity |].
  cbn [enumerate_from filter] in H1, H2.
  apply all_digits_cons.
  destruct (i mod 2 =? 0) eqn:Ei; cbn [negb] in H1, H2.
  - destruct H2 as (l2 & H2).
    match type of H2 with
    | mapM ?f (?x :: ?t) = _ =>
        destruct (mapM_cons_cases f x t cif_even_term_cases
                    (mapM_cases f t cif_even_term_cases))
          as [E | (b & l & Eb & El & _)]; [rewrite E in H2; discriminate |]
    end.
    split.
    + destruct (is_digit c) eqn:Ec; [reflexivity |].
      cbn beta iota in Eb. rewrite (int_not_digit c Ec) in Eb. discriminate.
    + apply (IH (i + 1) H1). now exists l.
  - destruct H1 as (l1 & H1).
    match type of H1 with
    | mapM ?f (?x :: ?t) = _ =>
        destruct (mapM_cons_cases f x t cif_odd_term_cases
                    (mapM_cases f t cif_odd_term_cases))
          as [E | (b & l & Eb & El & _)]; [rewrite E in H1; discriminate |]
    end.
    split.
    + destruct (is_digit c) eqn:Ec; [reflexivity |].
      cbn beta iota in Eb. rewrite (int_not_digit c Ec) in Eb. discriminate.
    + apply (IH (i + 1)); [now exists l | exact H2].
Qed.

(** [cif_get_checksum] returns the checksum on a string of digits, the
    empty string included, and raises [ValueError] on any other string. *)
Theorem cif_get_checksum_outcome (number : str) :
  cif_get_checksum number
  = if all_digits number then Return (cif_checksum_digit number)
    else Raise ValueError.
Proof.
  destruct (all_digits number) eqn:H; [now apply cif_get_checksum_digits |].
  unfold cif_get_checksum, enumerate.
  destruct (mapM_cases _ (filter (fun '(pos, _) => negb (pos mod 2 =? 0))
                            (enumerate_from 0 number)) cif_odd_term_cases)
    as [-> | (l1 & E1)]; [reflexivity |].
  rewrite E1. cbn [bind].
  destruct (mapM_cases _ (filter (fun '(pos, _) => pos mod 2 =? 0)
                            (enumerate_from 0 number)) cif_even_term_cases)
    as [-> | (l2 & E2)]; [reflexivity |].
  assert (all_digits number = true); [| congruence].
  apply (cif_parts_return_digits number 0); [now exists l1 | now exists l2].
Qed.

(** [get_checksum] of [ESCCCField.clean] writes exactly one decimal
    digit on every string of digits. *)
Theorem get_checksum_one_digit (d : str) :
  all_digits d = true ->
  exists c,
    get_checksum d = Return [c] /\ is_digit c = true
    /\ digit_value c = ccc_checksum d /\ 0 <= ccc_checksum d <= 9.
Proof.
  intros H. destruct (get_checksum_digit_char d H) as (E & Hc & Hv).
  exists (digit_char (ccc_checksum d)).
  repeat split; try assumption; apply ccc_checksum_range.
Qed.

Lemma get_checksum_one_digit_witness :
  exists c,
    get_checksum (lit "0021000418") = Return [c] /\ is_digit c = true
    /\ digit_value c = ccc_checksum (lit "0021000418")
    /\ 0 <= ccc_checksum (lit "0021000418") <= 9.
Proof.
  apply (get_checksum_one_digit (lit "0021000418")). reflexivity.
Defined.

(** ** One wrong digit in a bank account *)

Lemma weighted_sum_nil_r (s : str) : weighted_sum s [] = 0.
Proof. now destruct s. Qed.

Lemma weighted_sum_app (a s : str) (ws : list Z) :
  weighted_sum (a ++ s) ws
  = weighted_sum a ws + weighted_sum s (skipn (List.length a) ws).
Proof.
  revert ws. induction a as [| c r IH]; intros ws; [reflexivity |].
  destruct ws as [| w ws].
  - cbn [app weighted_sum List.length skipn]. now rewrite weighted_sum_nil_r.
  - cbn [app weighted_sum List.length skipn]. rewrite IH. lia.
Qed.

Lemma skipn_nth_error {A} (l : list A) (n : nat) (x : A) :
  nth_error l n = Some x -> exists r, skipn n l = x :: r.
Proof.
  revert l. induction n as [| n IH]; intros [| y l] H; try discriminate.
  - injection H as ->. now exists l.
  - now apply IH.
Qed.

Lemma weighted_sum_one_digit (a b : str) (d : ascii) (w : Z) :
  nth_error control_str (List.length a) = Some w ->
  exists rest,
    forall x, weighted_sum (a ++ x :: b) control_str
              = weighted_sum a control_str + digit_value x * w + rest.
Proof.
  intros Hw. destruct (skipn_nth_error _ _ _ Hw) as (r & Er).
  exists (weighted_sum b r). intros x.
  rewrite weighted_sum_app, Er. cbn [weighted_sum]. lia.
Qed.

(** A change of one digit changes the check digit that [get_checksum]
    writes, unless that check digit is 1: the values 1 and 10 of the
    checksum are both written 1, as for 0000000002 and 0000000009. *)
Theorem ccc_single_digit_error (a b : str) (d d' : ascii) :
  all_digits (a ++ d :: b) = true -> is_digit d' = true -> d <> d' ->
  (List.length a < 10)%nat ->
  (get_checksum (a ++ d :: b) = get_checksum (a ++ d' :: b) ->
   get_checksum (a ++ d :: b) = Return (lit "1"))
  /\ get_checksum (lit "0000000002") = get_checksum (lit "0000000009").
Proof.
  intros HD Hd' Hneq Hlen. split; [| reflexivity].
  apply all_digits_app in HD as HD1. destruct HD1 as [Ha Hdb].
  apply all_digits_cons in Hdb. destruct Hdb as [Hd Hb].
  assert (HD' : all_digits (a ++ d' :: b) = true).
  { apply all_digits_app. split; [assumption |].
    apply all_digits_cons. now split. }
  destruct (get_checksum_digit_char _ HD) as (-> & _ & Hv).
  destruct (get_checksum_digit_char _ HD') as (-> & _ & Hv').
  intros [= E].
  assert (Ek : ccc_checksum (a ++ d :: b) = ccc_checksum (a ++ d' :: b))
    by congruence.
  clear E Hv Hv'.
  assert (ccc_checksum (a ++ d :: b) = 1) as ->; [| reflexivity].
  destruct (nth_error control_str (List.length a)) as [w |] eqn:Ew.
  2:{ apply nth_error_None in Ew. cbn [control_str List.length] in Ew. lia. }
  destruct (weighted_sum_one_digit a b d w Ew) as (rest & Hsum).
  unfold ccc_checksum in *. rewrite (Hsum d) in *. rewrite (Hsum d') in Ek.
  pose proof (digit_value_range d Hd) as Hu.
  pose proof (digit_value_range d' Hd') as Hu'.
  assert (Hne : digit_value d <> digit_value d').
  { intros Hv. now apply digit_value_inj in Hv. }
  apply nth_error_In in Ew.
  generalize dependent (digit_value d). generalize dependent (digit_value d').
  generalize (weighted_sum a control_str). intros z u' Hu' u Ek Hu Hne.
  cbv zeta in *.
  simpl in Ew.
  repeat (destruct Ew as [<- | Ew];
          [ repeat match goal with
                   | H : context [?x =? ?y] |- _ => destruct (Z.eqb_spec x y)
                   | |- context [?x =? ?y] => destruct (Z.eqb_spec x y)
                   end;
            Z.div_mod_to_equations; lia |]).
  contradiction.
Qed.

Lemma ccc_single_digit_error_witness :
  get_checksum (lit "000000000" ++ "2"%char :: []) = Return (lit "1").
Proof.
  apply (proj1 (ccc_single_digit_error (lit "000000000") [] "2"%char
                  "9"%char eq_refl eq_refl ltac:(discriminate)
                  ltac:(cbn; lia))).
  reflexivity.
Defined.
